(** * evaluate_diffusion.py: the sample pipeline orchestrator

    A shallow embedding of the evaluation driver [src/evaluate_diffusion.py]:
    the per-sample loop with its two [try]/[except] blocks and its three
    [continue] statements, the running counters and accumulators, the
    fractions of the validity dictionary and the closing log lines.

    The driver calls collaborators that live elsewhere (the atom decoder, the
    stability checker, the reconstructor, RDKit, the docking tasks, the
    bond-length statistics).  Each call either returns a value or raises; a
    sample is therefore given together with the answers the collaborators
    give on it, and the collaborators of the reporting phase are functions of
    the accumulators handed to them.  Every call and every log line is
    recorded, in order, in a trace carried by the state.

    The script is taken from line 51 on: parsing the arguments, creating the
    logger and [torch.load] come before and hand over the argument record
    and the list [r['all_results']].  Floats the driver only passes along
    (distances, scores) and the quotients it computes are exact rationals. *)

From Stdlib Require Import QArith Ascii String.
From stdpp Require Import base list strings gmap gmultiset.

Local Open Scope string_scope.
Local Open Scope list_scope.
Local Open Scope nat_scope.

(** ** Exceptions and results of collaborator calls *)

Inductive exn : Type :=
  | MolReconsError                 (* reconstruct.MolReconsError *)
  | NameError (name : string)      (* use of a global that was never bound *)
  | ZeroDivisionError              (* int / 0 *)
  | OtherError (what : string).    (* anything else a collaborator raises *)

Global Instance exn_eq_dec : EqDecision exn.
Proof. solve_decision. Defined.

Inductive result (A : Type) : Type :=
  | Ok (a : A)
  | Err (e : exn).
Arguments Ok {A} a.
Arguments Err {A} e.

Definition is_ok {A} (r : result A) : bool :=
  match r with Ok _ => true | Err _ => false end.

(** ** Data handed around by the driver *)

(** [analyze.check_stability] returns a triple
    [(molecule_stable, nr_stable_atoms, n_atoms)]. *)
Record StabilityVerdict : Type := {
  molecule_stable : bool;
  n_stable_atoms : nat;
  n_atoms : nat
}.

(** A pair-distance record [((element_i, element_j), distance)] and a bonded
    distance record [((element_i, element_j, bond_order), distance)].  The
    driver only concatenates lists of them; the distance stands for the float
    the collaborator measured. *)
Definition PairDist : Type := (Z * Z) * Q.
Definition BondDist : Type := (Z * Z * Z) * Q.

(** The opaque molecule handle returned by the reconstructor. *)
Inductive Mol : Type := MolHandle (id : nat).

Definition ChemResults : Type := list (string * Q).
Definition VinaOut : Type := list Q.

Inductive VinaMode : Type := score_only | minimize | dock.

(** [--docking_mode], [choices=['qvina', 'vina_score', 'vina_dock', 'none']]. *)
Inductive DockingMode : Type := qvina | vina_score | vina_dock | none.

Global Instance DockingMode_eq_dec : EqDecision DockingMode.
Proof. solve_decision. Defined.

(** The value bound to [vina_results] at the end of the docking branch: the
    list of [run_sync], the dictionary keyed by run mode, or [None]. *)
Inductive VinaResults : Type :=
  | QVinaResults (r : VinaOut)
  | VinaDict (d : list (string * VinaOut))
  | VinaNone.

(** Command-line arguments the driver reads after parsing. *)
Record Args : Type := {
  verbose : bool;
  save : bool;
  docking_mode : DockingMode;
  exhaustiveness : Z;
  eval_step : Z
}.

(** One entry of [r['all_results']] together with what each collaborator
    answers when the loop body calls it on this entry. *)
Record Sample : Type := {
  get_atomic_number_from_index : result (list Z);
  check_stability : result StabilityVerdict;
  pair_distance_from_pos_v : result (list PairDist);
  is_aromatic_from_index : result (list bool);
  reconstruct_from_generated : result Mol;
  MolToSmiles : result string;
  get_chem : result ChemResults;
  QVina_from_generated_mol : result unit;
  QVina_run_sync : result VinaOut;
  Vina_from_generated_mol : result unit;
  Vina_run : VinaMode -> result VinaOut;
  bond_distance_from_mol : result (list BondDist)
}.

Definition MetricDict : Type := list (string * option Q).
Definition BondProfile : Type := list ((Z * Z * Z) * list Q).
Definition PairProfile : Type := list ((Z * Z) * list Q).

(** The collaborators of the reporting phase ([eval_bond_length],
    [eval_atom_type]). *)
Record Evaluator : Type := {
  get_bond_length_profile : list BondDist -> result BondProfile;
  eval_bond_length_profile : BondProfile -> result MetricDict;
  get_pair_length_profile : list PairDist -> result PairProfile;
  eval_pair_length_profile : PairProfile -> result MetricDict;
  eval_atom_type_distribution : gmultiset Z -> result Q;
  plot_distance_hist : PairProfile -> MetricDict -> result unit
}.

(** ** Observable events: collaborator calls and log lines, in order *)

Inductive SampleCall : Type :=
  | CDecode
  | CStability
  | CPairDist
  | CAromatic
  | CReconstruct
  | CSmiles
  | CGetChem
  | CQVinaTask
  | CQVinaRunSync
  | CVinaTask
  | CVinaRun (mode : VinaMode) (exh : Z)
  | CBondDist.

Inductive RunCall : Type :=
  | CBondProfile (arg : list BondDist)
  | CEvalBondProfile
  | CPairProfile (arg : list PairDist)
  | CEvalPairProfile
  | CAtomTypeJS (arg : gmultiset Z)
  | CPlot.

Inductive LogLine : Type :=
  | LoadDone (num_examples : nat)
  | EvaluateDone (num_samples : nat)
  | Metric (k : string) (v : option Q)
  | Text (s : string)
  | AtomTypeJS (v : Q)
  | Summary (n_recon n_complete n_evaluated : nat)
  | ReconstructFailed (example_idx : Z) (sample_idx : nat)
  | EvaluationFailed (example_idx : Z) (sample_idx : nat).

Inductive Event : Type :=
  | OnSample (sample_idx : nat) (c : SampleCall)
  | OnRun (c : RunCall)
  | Info (l : LogLine)
  | Warning (l : LogLine).

(** ** The variables of the script *)

Record State : Type := {
  all_mol_stable : nat;
  all_atom_stable : nat;
  all_n_atom : nat;
  n_recon_success : nat;
  n_eval_success : nat;
  n_complete : nat;
  results : list (ChemResults * VinaResults);
  all_pair_dist : list PairDist;
  all_bond_dist : list BondDist;
  all_atom_types : gmultiset Z;
  success_pair_dist : list PairDist;
  success_atom_types : gmultiset Z;
  trace : list Event
}.

(** Lines 55-60. *)
Definition init_state : State := {|
  all_mol_stable := 0; all_atom_stable := 0; all_n_atom := 0;
  n_recon_success := 0; n_eval_success := 0; n_complete := 0;
  results := [];
  all_pair_dist := []; all_bond_dist := [];
  all_atom_types := ∅;
  success_pair_dist := []; success_atom_types := ∅;
  trace := []
|}.

(** In-place updates of single variables ([x += v]). *)
Definition add_all_atom_types (c : gmultiset Z) (st : State) : State := {|
  all_mol_stable := all_mol_stable st; all_atom_stable := all_atom_stable st;
  all_n_atom := all_n_atom st; n_recon_success := n_recon_success st;
  n_eval_success := n_eval_success st; n_complete := n_complete st;
  results := results st; all_pair_dist := all_pair_dist st;
  all_bond_dist := all_bond_dist st;
  all_atom_types := all_atom_types st ⊎ c;
  success_pair_dist := success_pair_dist st;
  success_atom_types := success_atom_types st; trace := trace st |}.

Definition add_all_mol_stable (v : nat) (st : State) : State := {|
  all_mol_stable := all_mol_stable st + v;
  all_atom_stable := all_atom_stable st;
  all_n_atom := all_n_atom st; n_recon_success := n_recon_success st;
  n_eval_success := n_eval_success st; n_complete := n_complete st;
  results := results st; all_pair_dist := all_pair_dist st;
  all_bond_dist := all_bond_dist st; all_atom_types := all_atom_types st;
  success_pair_dist := success_pair_dist st;
  success_atom_types := success_atom_types st; trace := trace st |}.

Definition add_all_atom_stable (v : nat) (st : State) : State := {|
  all_mol_stable := all_mol_stable st;
  all_atom_stable := all_atom_stable st + v;
  all_n_atom := all_n_atom st; n_recon_success := n_recon_success st;
  n_eval_success := n_eval_success st; n_complete := n_complete st;
  results := results st; all_pair_dist := all_pair_dist st;
  all_bond_dist := all_bond_dist st; all_atom_types := all_atom_types st;
  success_pair_dist := success_pair_dist st;
  success_atom_types := success_atom_types st; trace := trace st |}.

Definition add_all_n_atom (v : nat) (st : State) : State := {|
  all_mol_stable := all_mol_stable st; all_atom_stable := all_atom_stable st;
  all_n_atom := all_n_atom st + v;
  n_recon_success := n_recon_success st;
  n_eval_success := n_eval_success st; n_complete := n_complete st;
  results := results st; all_pair_dist := all_pair_dist st;
  all_bond_dist := all_bond_dist st; all_atom_types := all_atom_types st;
  success_pair_dist := success_pair_dist st;
  success_atom_types := success_atom_types st; trace := trace st |}.

Definition extend_all_pair_dist (l : list PairDist) (st : State) : State := {|
  all_mol_stable := all_mol_stable st; all_atom_stable := all_atom_stable st;
  all_n_atom := all_n_atom st; n_recon_success := n_recon_success st;
  n_eval_success := n_eval_success st; n_complete := n_complete st;
  results := results st;
  all_pair_dist := all_pair_dist st ++ l;
  all_bond_dist := all_bond_dist st; all_atom_types := all_atom_types st;
  success_pair_dist := success_pair_dist st;
  success_atom_types := success_atom_types st; trace := trace st |}.

Definition incr_n_recon_success (st : State) : State := {|
  all_mol_stable := all_mol_stable st; all_atom_stable := all_atom_stable st;
  all_n_atom := all_n_atom st;
  n_recon_success := n_recon_success st + 1;
  n_eval_success := n_eval_success st; n_complete := n_complete st;
  results := results st; all_pair_dist := all_pair_dist st;
  all_bond_dist := all_bond_dist st; all_atom_types := all_atom_types st;
  success_pair_dist := success_pair_dist st;
  success_atom_types := success_atom_types st; trace := trace st |}.

Definition incr_n_complete (st : State) : State := {|
  all_mol_stable := all_mol_stable st; all_atom_stable := all_atom_stable st;
  all_n_atom := all_n_atom st; n_recon_success := n_recon_success st;
  n_eval_success := n_eval_success st;
  n_complete := n_complete st + 1;
  results := results st; all_pair_dist := all_pair_dist st;
  all_bond_dist := all_bond_dist st; all_atom_types := all_atom_types st;
  success_pair_dist := success_pair_dist st;
  success_atom_types := success_atom_types st; trace := trace st |}.

Definition incr_n_eval_success (st : State) : State := {|
  all_mol_stable := all_mol_stable st; all_atom_stable := all_atom_stable st;
  all_n_atom := all_n_atom st; n_recon_success := n_recon_success st;
  n_eval_success := n_eval_success st + 1;
  n_complete := n_complete st;
  results := results st; all_pair_dist := all_pair_dist st;
  all_bond_dist := all_bond_dist st; all_atom_types := all_atom_types st;
  success_pair_dist := success_pair_dist st;
  success_atom_types := success_atom_types st; trace := trace st |}.

Definition extend_all_bond_dist (l : list BondDist) (st : State) : State := {|
  all_mol_stable := all_mol_stable st; all_atom_stable := all_atom_stable st;
  all_n_atom := all_n_atom st; n_recon_success := n_recon_success st;
  n_eval_success := n_eval_success st; n_complete := n_complete st;
  results := results st; all_pair_dist := all_pair_dist st;
  all_bond_dist := all_bond_dist st ++ l;
  all_atom_types := all_atom_types st;
  success_pair_dist := success_pair_dist st;
  success_atom_types := success_atom_types st; trace := trace st |}.

Definition extend_success_pair_dist (l : list PairDist) (st : State) : State := {|
  all_mol_stable := all_mol_stable st; all_atom_stable := all_atom_stable st;
  all_n_atom := all_n_atom st; n_recon_success := n_recon_success st;
  n_eval_success := n_eval_success st; n_complete := n_complete st;
  results := results st; all_pair_dist := all_pair_dist st;
  all_bond_dist := all_bond_dist st; all_atom_types := all_atom_types st;
  success_pair_dist := success_pair_dist st ++ l;
  success_atom_types := success_atom_types st; trace := trace st |}.

Definition add_success_atom_types (c : gmultiset Z) (st : State) : State := {|
  all_mol_stable := all_mol_stable st; all_atom_stable := all_atom_stable st;
  all_n_atom := all_n_atom st; n_recon_success := n_recon_success st;
  n_eval_success := n_eval_success st; n_complete := n_complete st;
  results := results st; all_pair_dist := all_pair_dist st;
  all_bond_dist := all_bond_dist st; all_atom_types := all_atom_types st;
  success_pair_dist := success_pair_dist st;
  success_atom_types := success_atom_types st ⊎ c;
  trace := trace st |}.

Definition record_event (ev : Event) (st : State) : State := {|
  all_mol_stable := all_mol_stable st; all_atom_stable := all_atom_stable st;
  all_n_atom := all_n_atom st; n_recon_success := n_recon_success st;
  n_eval_success := n_eval_success st; n_complete := n_complete st;
  results := results st; all_pair_dist := all_pair_dist st;
  all_bond_dist := all_bond_dist st; all_atom_types := all_atom_types st;
  success_pair_dist := success_pair_dist st;
  success_atom_types := success_atom_types st;
  trace := trace st ++ [ev] |}.

(** [Counter(xs)]: the multiset of the elements of a list.  [+=] on two
    counters with positive counts is multiset sum. *)
Definition Counter (xs : list Z) : gmultiset Z := list_to_set_disj xs.

(** ** A monad for the script: state, exceptions and [continue] *)

Inductive Outcome (A : Type) : Type :=
  | Ret (a : A)        (* the statement ran to its end *)
  | Continue           (* a [continue] was executed *)
  | Raise (e : exn).   (* an exception is propagating *)
Arguments Ret {A} a.
Arguments Continue {A}.
Arguments Raise {A} e.

Definition M (A : Type) : Type := State -> Outcome A * State.

Global Instance M_ret : MRet M := fun A a st => (Ret a, st).

Global Instance M_bind : MBind M := fun A B k m st =>
  match m st with
  | (Ret a, st') => k a st'
  | (Continue, st') => (Continue, st')
  | (Raise e, st') => (Raise e, st')
  end.

Definition raise {A} (e : exn) : M A := fun st => (Raise e, st).
Definition continue {A} : M A := fun st => (Continue, st).
Definition modify (f : State -> State) : M unit := fun st => (Ret tt, f st).
Definition gets {A} (f : State -> A) : M A := fun st => (Ret (f st), st).
Definition emit (ev : Event) : M unit := modify (record_event ev).

Definition lift {A} (r : result A) : M A :=
  match r with Ok a => mret a | Err e => raise e end.

(** A collaborator call made for sample [sample_idx], and one made by the
    reporting phase: the call is recorded, then it returns or raises. *)
Definition call {A} (sample_idx : nat) (c : SampleCall) (r : result A) : M A :=
  emit (OnSample sample_idx c);; lift r.

Definition rcall {A} (c : RunCall) (r : result A) : M A :=
  emit (OnRun c);; lift r.

(** [try: m  except <catches>: h].  An exception [m] raises is handled by
    [h] when the clause matches it; [continue] passes through. *)
Definition try_except {A} (m : M A) (catches : exn -> bool) (h : M A) : M A :=
  fun st =>
    match m st with
    | (Raise e, st') => if catches e then h st' else (Raise e, st')
    | r => r
    end.

(** Reading a module-level name: [NameError] when it was never assigned. *)
Definition global {A} (name : string) (binding : option A) : M A :=
  match binding with
  | Some v => mret v
  | None => raise (NameError name)
  end.

(** [example_idx] is read by both warnings but no statement of the script
    assigns it. *)
Definition example_idx : option Z := None.

(** [for i, x in enumerate(xs): f(i, x)]: a [continue] ends the current
    iteration only, an exception leaves the loop. *)
Fixpoint for_enumerate {A} (f : nat -> A -> M unit) (i : nat) (xs : list A)
  : M unit :=
  match xs with
  | [] => mret tt
  | x :: xs' => fun st =>
      match f i x st with
      | (Raise e, st') => (Raise e, st')
      | (_, st') => for_enumerate f (S i) xs' st'
      end
  end.

(** ['.' in smiles]. *)
Fixpoint contains_char (c : Ascii.ascii) (s : string) : bool :=
  match s with
  | EmptyString => false
  | String c' s' => if Ascii.eqb c c' then true else contains_char c s'
  end.

(** ** The loop body (lines 63-125) *)

(** Lines 79-81, the statements under the first [try]. *)
Definition reconstruction (sample_idx : nat) (s : Sample) : M (Mol * string) :=
  pred_aromatic ← call sample_idx CAromatic (is_aromatic_from_index s);
  mol ← call sample_idx CReconstruct (reconstruct_from_generated s);
  smiles ← call sample_idx CSmiles (MolToSmiles s);
  mret (mol, smiles).

(** Lines 82-85: [except reconstruct.MolReconsError]. *)
Definition catches_MolReconsError (e : exn) : bool :=
  bool_decide (e = MolReconsError).

Definition reconstruct_failed (args : Args) (sample_idx : nat) : M (Mol * string) :=
  (if verbose args then
     ex ← global "example_idx" example_idx;
     emit (Warning (ReconstructFailed ex sample_idx))
   else mret tt);;
  continue.

(** Lines 94-114, the statements under the second [try]. *)
Definition chem_and_docking (args : Args) (sample_idx : nat) (s : Sample)
  : M (ChemResults * VinaResults) :=
  chem_results ← call sample_idx CGetChem (get_chem s);
  vina_results ←
    match docking_mode args with
    | qvina =>
        vina_task ← call sample_idx CQVinaTask (QVina_from_generated_mol s);
        r ← call sample_idx CQVinaRunSync (QVina_run_sync s);
        mret (QVinaResults r)
    | vina_score | vina_dock =>
        vina_task ← call sample_idx CVinaTask (Vina_from_generated_mol s);
        score_only_results ←
          call sample_idx (CVinaRun score_only (exhaustiveness args))
               (Vina_run s score_only);
        minimize_results ←
          call sample_idx (CVinaRun minimize (exhaustiveness args))
               (Vina_run s minimize);
        let vina_results :=
          [("score_only", score_only_results); ("minimize", minimize_results)] in
        if bool_decide (docking_mode args = vina_dock) then
          docking_results ←
            call sample_idx (CVinaRun dock (exhaustiveness args))
                 (Vina_run s dock);
          mret (VinaDict (vina_results ++ [("dock", docking_results)]))
        else mret (VinaDict vina_results)
    | none => mret VinaNone
    end;
  modify incr_n_eval_success;;
  mret (chem_results, vina_results).

(** Lines 115-118: the bare [except:] catches every exception. *)
Definition catches_all (e : exn) : bool := true.

Definition evaluation_failed (args : Args) (sample_idx : nat)
  : M (ChemResults * VinaResults) :=
  (if verbose args then
     ex ← global "example_idx" example_idx;
     emit (Warning (EvaluationFailed ex sample_idx))
   else mret tt);;
  continue.

Definition body (args : Args) (sample_idx : nat) (s : Sample) : M unit :=
  (* stability check *)
  pred_atom_type ← call sample_idx CDecode (get_atomic_number_from_index s);
  modify (add_all_atom_types (Counter pred_atom_type));;
  r_stable ← call sample_idx CStability (check_stability s);
  modify (add_all_mol_stable (Nat.b2n (molecule_stable r_stable)));;
  modify (add_all_atom_stable (n_stable_atoms r_stable));;
  modify (add_all_n_atom (n_atoms r_stable));;
  pair_dist ← call sample_idx CPairDist (pair_distance_from_pos_v s);
  modify (extend_all_pair_dist pair_dist);;
  (* reconstruction *)
  '(mol, smiles) ←
    try_except (reconstruction sample_idx s)
               catches_MolReconsError
               (reconstruct_failed args sample_idx);
  modify incr_n_recon_success;;
  (if contains_char "."%char smiles then continue else mret tt);;
  modify incr_n_complete;;
  (* chemical and docking check *)
  _ ← try_except (chem_and_docking args sample_idx s)
                 catches_all
                 (evaluation_failed args sample_idx);
  (* now we only consider complete molecules as success *)
  bond_dist ← call sample_idx CBondDist (bond_distance_from_mol s);
  modify (extend_all_bond_dist bond_dist);;
  modify (extend_success_pair_dist pair_dist);;
  modify (add_success_atom_types (Counter pred_atom_type)).

Definition sample_loop (args : Args) (all_results : list Sample) : M unit :=
  for_enumerate (body args) 0 all_results.

(** ** The reporting phase (lines 127-161) *)

(** [print_dict]. *)
Fixpoint print_dict (d : MetricDict) : M unit :=
  match d with
  | [] => mret tt
  | (k, v) :: d' =>
      match v with
      | Some x => emit (Info (Metric k (Some x)))
      | None => emit (Info (Metric k None))
      end;;
      print_dict d'
  end.

(** [a / b] on two counters.  Python's true division of two ints is the
    correctly rounded quotient; the exact quotient stands for it. *)
Definition true_div (a b : nat) : M Q :=
  match b with
  | 0 => raise ZeroDivisionError
  | S _ => mret (inject_Z (Z.of_nat a) / inject_Z (Z.of_nat b))%Q
  end.

Definition validity_dict (num_samples : nat) : M MetricDict :=
  ms ← gets all_mol_stable;
  fraction_mol_stable ← true_div ms num_samples;
  ats ← gets all_atom_stable;
  na ← gets all_n_atom;
  fraction_atm_stable ← true_div ats na;
  nr ← gets n_recon_success;
  fraction_recon ← true_div nr num_samples;
  ne ← gets n_eval_success;
  fraction_eval ← true_div ne num_samples;
  nc ← gets n_complete;
  fraction_complete ← true_div nc num_samples;
  mret [("mol_stable", Some fraction_mol_stable);
        ("atm_stable", Some fraction_atm_stable);
        ("recon_success", Some fraction_recon);
        ("eval_success", Some fraction_eval);
        ("complete", Some fraction_complete)].

Definition report (args : Args) (ev : Evaluator) (num_samples : nat) : M unit :=
  emit (Info (EvaluateDone num_samples));;
  d ← validity_dict num_samples;
  print_dict d;;
  abd ← gets all_bond_dist;
  c_bond_length_profile ←
    rcall (CBondProfile abd) (get_bond_length_profile ev abd);
  c_bond_length_dict ←
    rcall CEvalBondProfile (eval_bond_length_profile ev c_bond_length_profile);
  emit (Info (Text "JS bond distances of complete mols: "));;
  print_dict c_bond_length_dict;;
  spd ← gets success_pair_dist;
  success_pair_length_profile ←
    rcall (CPairProfile spd) (get_pair_length_profile ev spd);
  success_js_metrics ←
    rcall CEvalPairProfile
          (eval_pair_length_profile ev success_pair_length_profile);
  print_dict success_js_metrics;;
  sat ← gets success_atom_types;
  atom_type_js ← rcall (CAtomTypeJS sat) (eval_atom_type_distribution ev sat);
  emit (Info (AtomTypeJS atom_type_js));;
  (if save args then
     rcall CPlot (plot_distance_hist ev success_pair_length_profile
                                     success_js_metrics)
   else mret tt);;
  nr ← gets n_recon_success;
  nc ← gets n_complete;
  rs ← gets results;
  emit (Info (Summary nr nc (length rs))).

(** The script from line 51 on, given the loaded [r['all_results']]. *)
Definition main (args : Args) (ev : Evaluator) (all_results : list Sample)
  : M unit :=
  let num_examples := length all_results in
  emit (Info (LoadDone num_examples));;
  let num_samples := num_examples in
  sample_loop args all_results;;
  report args ev num_samples.

Definition run (args : Args) (ev : Evaluator) (all_results : list Sample)
  : Outcome unit * State :=
  main args ev all_results init_state.

(** ** Concrete samples used by the examples below *)

Definition ethanol_pairs : list PairDist :=
  [((6, 6), 3 # 2); ((6, 8), 12 # 5); ((6, 8), 7 # 5)]%Z.

Definition ethanol_bonds : list BondDist :=
  [((6, 6, 1), 3 # 2); ((6, 8, 1), 7 # 5)]%Z.

(** A three-atom sample on which the decoder, the stability checker and the
    distance extractor return; the later answers are the arguments. *)
Definition sample_with (recon : result Mol) (smiles : result string)
    (chem : result ChemResults) (task : result unit)
    (runs : VinaMode -> result VinaOut) (bonds : result (list BondDist))
  : Sample := {|
  get_atomic_number_from_index := Ok [6; 6; 8]%Z;
  check_stability :=
    Ok {| molecule_stable := false; n_stable_atoms := 2; n_atoms := 3 |};
  pair_distance_from_pos_v := Ok ethanol_pairs;
  is_aromatic_from_index := Ok [false; false; false];
  reconstruct_from_generated := recon;
  MolToSmiles := smiles;
  get_chem := chem;
  QVina_from_generated_mol := task;
  QVina_run_sync := runs dock;
  Vina_from_generated_mol := task;
  Vina_run := runs;
  bond_distance_from_mol := bonds
|}.

Definition vina_answers (m : VinaMode) : result VinaOut :=
  match m with
  | score_only => Ok [-(5 # 1)]%Q
  | minimize => Ok [-(11 # 2)]%Q
  | dock => Ok [-(6 # 1)]%Q
  end.

Definition chem_answer : ChemResults := [("qed", 2 # 5); ("sa", 3 # 4)]%Q.

(** Every stage succeeds. *)
Definition sample_success : Sample :=
  sample_with (Ok (MolHandle 0)) (Ok "CCO") (Ok chem_answer) (Ok tt)
              vina_answers (Ok ethanol_bonds).

(** The reconstructor raises [MolReconsError]. *)
Definition sample_recon_fails : Sample :=
  sample_with (Err MolReconsError) (Ok "CCO") (Ok chem_answer) (Ok tt)
              vina_answers (Ok ethanol_bonds).

(** The reconstructed molecule has two fragments. *)
Definition sample_incomplete : Sample :=
  sample_with (Ok (MolHandle 1)) (Ok "CC.O") (Ok chem_answer) (Ok tt)
              vina_answers (Ok ethanol_bonds).

(** [scoring_func.get_chem] raises. *)
Definition sample_chem_fails : Sample :=
  sample_with (Ok (MolHandle 2)) (Ok "CCO") (Err (OtherError "get_chem"))
              (Ok tt) vina_answers (Ok ethanol_bonds).

(** The docking run in mode [dock] raises. *)
Definition sample_dock_fails : Sample :=
  sample_with (Ok (MolHandle 3)) (Ok "CCO") (Ok chem_answer) (Ok tt)
              (fun m => match m with
                        | dock => Err (OtherError "vina")
                        | _ => vina_answers m
                        end)
              (Ok ethanol_bonds).


Definition mk_args (v : bool) (m : DockingMode) : Args := {|
  verbose := v; save := false; docking_mode := m;
  exhaustiveness := 16; eval_step := -1
|}.

(** Reporting collaborators that return empty profiles. *)
Definition plain_evaluator : Evaluator := {|
  get_bond_length_profile := fun _ => Ok [];
  eval_bond_length_profile := fun _ => Ok [("JSD_CC_2", None)];
  get_pair_length_profile := fun _ => Ok [];
  eval_pair_length_profile := fun _ => Ok [];
  eval_atom_type_distribution := fun _ => Ok (1 # 10)%Q;
  plot_distance_hist := fun _ _ => Ok tt
|}.

(** ** Specification-side vocabulary *)

(** The events a computation appended to the trace. *)
Definition events_since (st st' : State) : list Event :=
  drop (length (trace st)) (trace st').

(** The canonical string contains the fragment separator. *)
Definition has_fragment_separator (smiles : string) : Prop :=
  In "."%char (list_ascii_of_string smiles).

(** The sample reaches the reconstruction stage. *)
Definition reaches_reconstruction (s : Sample) : bool :=
  is_ok (get_atomic_number_from_index s) && is_ok (check_stability s)
  && is_ok (pair_distance_from_pos_v s).

(** All three calls of the reconstruction stage return. *)
Definition passes_reconstruction (s : Sample) : bool :=
  is_ok (is_aromatic_from_index s) && is_ok (reconstruct_from_generated s)
  && is_ok (MolToSmiles s).

(** The canonical string of the sample has a single fragment. *)
Definition passes_completeness (s : Sample) : bool :=
  match MolToSmiles s with
  | Ok smiles =>
      forallb (fun c => negb (Ascii.eqb c "."%char)) (list_ascii_of_string smiles)
  | Err _ => false
  end.

(** Every docking call the mode asks for returns. *)
Definition docking_returns (args : Args) (s : Sample) : bool :=
  match docking_mode args with
  | qvina => is_ok (QVina_from_generated_mol s) && is_ok (QVina_run_sync s)
  | vina_score =>
      is_ok (Vina_from_generated_mol s) && is_ok (Vina_run s score_only)
      && is_ok (Vina_run s minimize)
  | vina_dock =>
      is_ok (Vina_from_generated_mol s) && is_ok (Vina_run s score_only)
      && is_ok (Vina_run s minimize) && is_ok (Vina_run s dock)
  | none => true
  end.

Definition passes_evaluation (args : Args) (s : Sample) : bool :=
  is_ok (get_chem s) && docking_returns args s.

(** A sample of the success set: it passes reconstruction, the completeness
    check and the chemical/docking evaluation. *)
Definition is_success (args : Args) (s : Sample) : bool :=
  passes_reconstruction s && passes_completeness s && passes_evaluation args s.

Definition from_ok {A} (r : result (list A)) : list A :=
  match r with Ok l => l | Err _ => [] end.

Definition pairs_of (s : Sample) : list PairDist :=
  from_ok (pair_distance_from_pos_v s).
Definition bonds_of (s : Sample) : list BondDist :=
  from_ok (bond_distance_from_mol s).
Definition atom_types_of (s : Sample) : gmultiset Z :=
  Counter (from_ok (get_atomic_number_from_index s)).

(** The sample reaches the chemical/docking stage: it is counted complete. *)
Definition reaches_evaluation (s : Sample) : bool :=
  reaches_reconstruction s && passes_reconstruction s && passes_completeness s.

(** The docking calls among a list of events, in order. *)
Definition is_docking_call (c : SampleCall) : bool :=
  match c with
  | CQVinaTask | CQVinaRunSync | CVinaTask | CVinaRun _ _ => true
  | _ => false
  end.

Fixpoint docking_calls (evs : list Event) : list SampleCall :=
  match evs with
  | [] => []
  | OnSample _ c :: evs' =>
      if is_docking_call c then c :: docking_calls evs' else docking_calls evs'
  | _ :: evs' => docking_calls evs'
  end.

(** The answer is a value or the one exception the first handler names. *)
Definition ok_or_MolReconsError {A} (r : result A) : bool :=
  match r with
  | Ok _ => true
  | Err e => catches_MolReconsError e
  end.

(** Every failure the collaborators signal on the sample is one that a
    handler of the loop body catches: the calls outside the two [try]
    blocks return and the reconstruction stage raises nothing but
    [MolReconsError]. *)
Definition only_caught_failures (s : Sample) : bool :=
  reaches_reconstruction s
  && ok_or_MolReconsError (is_aromatic_from_index s)
  && ok_or_MolReconsError (reconstruct_from_generated s)
  && ok_or_MolReconsError (MolToSmiles s)
  && is_ok (bond_distance_from_mol s).

(** The outcome and the variables of a run when the loop is left (line 127). *)
Definition after_loop (args : Args) (all_results : list Sample)
  : Outcome unit * State :=
  sample_loop args all_results
    (record_event (Info (LoadDone (length all_results))) init_state).

(** The sum of the atom-type counters of a list of samples. *)
Definition atom_types_sum (l : list Sample) : gmultiset Z :=
  foldr (fun s acc => atom_types_of s ⊎ acc) ∅ l.

(** What the accumulators of [st'] hold beyond those of [st] once the
    samples [xs] went through the loop: the all-pairs list has every sample,
    the success-side accumulators the samples of the success set. *)
Definition accumulated (args : Args) (xs : list Sample) (st st' : State)
  : Prop :=
  let success := List.filter (is_success args) xs in
  all_pair_dist st' = all_pair_dist st ++ flat_map pairs_of xs /\
  success_pair_dist st' = success_pair_dist st ++ flat_map pairs_of success /\
  all_bond_dist st' = all_bond_dist st ++ flat_map bonds_of success /\
  success_atom_types st' = success_atom_types st ⊎ atom_types_sum success.

(** The line [print_dict] logs for one entry, and the state after a list of
    events was recorded. *)
Definition metric_line (kv : string * option Q) : Event :=
  Info (Metric (fst kv) (snd kv)).

Definition record_events (evs : list Event) (st : State) : State := {|
  all_mol_stable := all_mol_stable st; all_atom_stable := all_atom_stable st;
  all_n_atom := all_n_atom st; n_recon_success := n_recon_success st;
  n_eval_success := n_eval_success st; n_complete := n_complete st;
  results := results st; all_pair_dist := all_pair_dist st;
  all_bond_dist := all_bond_dist st; all_atom_types := all_atom_types st;
  success_pair_dist := success_pair_dist st;
  success_atom_types := success_atom_types st;
  trace := trace st ++ evs |}.

(** The events the loop records: calls made for a sample, and warnings. *)
Definition loop_event (ev : Event) : Prop :=
  match ev with
  | OnSample _ _ | Warning _ => True
  | OnRun _ | Info _ => False
  end.

(** The events the reporting phase records from the variables [st]. *)
Definition report_event (n : nat) (st : State) (ev : Event) : Prop :=
  match ev with
  | OnRun (CBondProfile arg) => arg = all_bond_dist st
  | OnRun (CPairProfile arg) => arg = success_pair_dist st
  | OnRun (CAtomTypeJS arg) => arg = success_atom_types st
  | OnRun _ => True
  | Info (EvaluateDone m) => m = n
  | Info (Summary a b c) =>
      a = n_recon_success st /\ b = n_complete st /\ c = length (results st)
  | Info (LoadDone _) => False
  | Info _ => True
  | OnSample _ _ | Warning _ => False
  end.

(** The verdict of the stability checker counts its stable atoms among the
    atoms of the sample. *)
Definition verdict_wf (s : Sample) : Prop :=
  match check_stability s with
  | Ok v => n_stable_atoms v <= n_atoms v
  | Err _ => True
  end.

(** The order of the gate counters after at most [k] iterations. *)
Definition gates_inv (k : nat) (st : State) : Prop :=
  n_eval_success st <= n_complete st /\
  n_complete st <= n_recon_success st /\
  n_recon_success st <= k /\
  all_mol_stable st <= k.

(** The lines the reporting phase logs first: the end of the loop, then the
    five fractions in the order of [validity_dict]. *)
Definition validity_lines (n : nat) (q1 q2 q3 q4 q5 : Q) : list Event :=
  [Info (EvaluateDone n);
   Info (Metric "mol_stable" (Some q1));
   Info (Metric "atm_stable" (Some q2));
   Info (Metric "recon_success" (Some q3));
   Info (Metric "eval_success" (Some q4));
   Info (Metric "complete" (Some q5))].

(** [wp m st post]: running [m] from [st] ends in an outcome and a state
    that satisfy [post]. *)
Definition wp {A} (m : M A) (st : State) (post : Outcome A -> State -> Prop)
  : Prop :=
  post (fst (m st)) (snd (m st)).

(** The exact quotient of two counters. *)
Definition frac (a b : nat) : Q := Z.of_nat a # Pos.of_nat b.

(** What [validity_dict] yields from the variables [st]: the five fractions
    in the order of the dictionary, or a [ZeroDivisionError] when a
    denominator is zero. *)
Definition validity_spec (n : nat) (st : State) (o : Outcome MetricDict)
  : Prop :=
  match o with
  | Ret d =>
      0 < n /\ 0 < all_n_atom st /\
      exists q1 q2 q3 q4 q5 : Q,
        d = [("mol_stable", Some q1); ("atm_stable", Some q2);
             ("recon_success", Some q3); ("eval_success", Some q4);
             ("complete", Some q5)] /\
        (q1 == frac (all_mol_stable st) n)%Q /\
        (q2 == frac (all_atom_stable st) (all_n_atom st))%Q /\
        (q3 == frac (n_recon_success st) n)%Q /\
        (q4 == frac (n_eval_success st) n)%Q /\
        (q5 == frac (n_complete st) n)%Q
  | Raise e => e = ZeroDivisionError /\ (n = 0 \/ all_n_atom st = 0)
  | Continue => False
  end.

(** ** [print_ring_ratio] (lines 26-32) *)

(** The line [print_ring_ratio] logs for one ring size. *)
Inductive RingLine : Type := RingRatio (ring_size : Z) (ratio : Q).

(** [a / b] on two ints, outside the script's monad. *)
Definition int_true_div (a b : nat) : result Q :=
  match b with
  | 0 => Err ZeroDivisionError
  | S _ => Ok (inject_Z (Z.of_nat a) / inject_Z (Z.of_nat b))%Q
  end.

(** Lines 28-31: [n_mol] counts the counters that have the key
    [ring_size].  A counter is a dictionary from ring size to a count; only
    the presence of the key is tested. *)
Definition count_mols (ring_size : Z) (all_ring_sizes : list (gmap Z Z)) : nat :=
  foldl (fun n_mol counter =>
           if bool_decide (is_Some (counter !! ring_size))
           then n_mol + 1 else n_mol)
        0 all_ring_sizes.

(** The loop over the ring sizes: the lines logged so far are threaded, a
    [ZeroDivisionError] ends the loop with the lines logged before it. *)
Fixpoint ring_ratio_loop (sizes : list Z) (all_ring_sizes : list (gmap Z Z))
    (logged : list RingLine) : list RingLine * result unit :=
  match sizes with
  | [] => (logged, Ok tt)
  | ring_size :: sizes' =>
      let n_mol := count_mols ring_size all_ring_sizes in
      match int_true_div n_mol (length all_ring_sizes) with
      | Err e => (logged, Err e)
      | Ok ratio =>
          ring_ratio_loop sizes' all_ring_sizes
                          (logged ++ [RingRatio ring_size ratio])
      end
  end.

(** [range(3, 10)]. *)
Definition ring_sizes : list Z := seqZ 3 7.

Definition print_ring_ratio (all_ring_sizes : list (gmap Z Z))
  : list RingLine * result unit :=
  ring_ratio_loop ring_sizes all_ring_sizes [].

(** The number of counters that have the key. *)
Definition count_having (ring_size : Z) (all_ring_sizes : list (gmap Z Z))
  : nat :=
  length (List.filter (fun counter => bool_decide (is_Some (counter !! ring_size)))
                      all_ring_sizes).

(** What the line logged for [ring_size] says. *)
Definition ring_line_ok (all_ring_sizes : list (gmap Z Z)) (ring_size : Z)
    (line : RingLine) : Prop :=
  match line with
  | RingRatio k q =>
      k = ring_size /\
      (q == frac (count_having ring_size all_ring_sizes)
                 (length all_ring_sizes))%Q /\
      (0 <= q /\ q <= 1)%Q
  end.

(** ** More specification-side vocabulary *)

(** The number of samples that satisfy a test. *)
Definition count_samples (p : Sample -> bool) (xs : list Sample) : nat :=
  length (List.filter p xs).

(** The verdict the stability checker gave on a sample. *)
Definition verdict_of (s : Sample) : StabilityVerdict :=
  match check_stability s with
  | Ok v => v
  | Err _ => {| molecule_stable := false; n_stable_atoms := 0; n_atoms := 0 |}
  end.

(** What the counters of [st'] hold beyond those of [st] once the samples
    [xs] went through the loop. *)
Definition counted (args : Args) (xs : list Sample) (st st' : State) : Prop :=
  n_recon_success st' =
    n_recon_success st + count_samples passes_reconstruction xs /\
  n_complete st' =
    n_complete st
    + count_samples (fun s => passes_reconstruction s && passes_completeness s) xs /\
  n_eval_success st' = n_eval_success st + count_samples (is_success args) xs /\
  all_mol_stable st' =
    all_mol_stable st + count_samples (fun s => molecule_stable (verdict_of s)) xs /\
  all_atom_stable st' =
    all_atom_stable st + sum_list_with (fun s => n_stable_atoms (verdict_of s)) xs /\
  all_n_atom st' =
    all_n_atom st + sum_list_with (fun s => n_atoms (verdict_of s)) xs /\
  all_atom_types st' = all_atom_types st ⊎ atom_types_sum xs.

(** How a handler of the loop body ends: by the [NameError] of the warning
    it formats with [--verbose], by [continue] without. *)
Definition handler_outcome (args : Args) : Outcome unit :=
  if verbose args then Raise (NameError "example_idx") else Continue.

(** How the iteration of a sample ends when all its failures are ones a
    handler catches. *)
Definition iteration_outcome (args : Args) (s : Sample) : Outcome unit :=
  if negb (passes_reconstruction s) then handler_outcome args
  else if negb (passes_completeness s) then Continue
  else if negb (passes_evaluation args s) then handler_outcome args
  else Ret tt.

(** The docking calls a docking mode asks for, in order. *)
Definition mode_calls (args : Args) : list SampleCall :=
  let exh := exhaustiveness args in
  match docking_mode args with
  | qvina => [CQVinaTask; CQVinaRunSync]
  | vina_score =>
      [CVinaTask; CVinaRun score_only exh; CVinaRun minimize exh]
  | vina_dock =>
      [CVinaTask; CVinaRun score_only exh; CVinaRun minimize exh;
       CVinaRun dock exh]
  | none => []
  end.

(** The calls of the reporting phase among a list of events, in order. *)
Fixpoint run_calls (evs : list Event) : list RunCall :=
  match evs with
  | [] => []
  | OnRun c :: evs' => c :: run_calls evs'
  | _ :: evs' => run_calls evs'
  end.

(** Kinds of events. *)
Definition is_sample_call (ev : Event) : Prop :=
  match ev with OnSample _ _ => True | _ => False end.

Definition is_report_event (ev : Event) : Prop :=
  match ev with OnRun _ | Info _ => True | _ => False end.

Definition not_summary (ev : Event) : Prop :=
  match ev with Info (Summary _ _ _) => False | _ => True end.

Definition not_warning (ev : Event) : Prop :=
  match ev with Warning _ => False | _ => True end.


(** The calls made for samples among a list of events, in order. *)
Fixpoint sample_calls (evs : list Event) : list SampleCall :=
  match evs with
  | [] => []
  | OnSample _ c :: evs' => c :: sample_calls evs'
  | _ :: evs' => sample_calls evs'
  end.

(** The calls of a whole iteration under a docking mode, in source order. *)
Definition pipeline (args : Args) : list SampleCall :=
  [CDecode; CStability; CPairDist; CAromatic; CReconstruct; CSmiles; CGetChem]
  ++ mode_calls args ++ [CBondDist].

(** The variables of two states agree; their traces may differ. *)
Definition same_variables (st st' : State) : Prop :=
  all_mol_stable st' = all_mol_stable st /\
  all_atom_stable st' = all_atom_stable st /\
  all_n_atom st' = all_n_atom st /\
  n_recon_success st' = n_recon_success st /\
  n_eval_success st' = n_eval_success st /\
  n_complete st' = n_complete st /\
  results st' = results st /\
  all_pair_dist st' = all_pair_dist st /\
  all_bond_dist st' = all_bond_dist st /\
  all_atom_types st' = all_atom_types st /\
  success_pair_dist st' = success_pair_dist st /\
  success_atom_types st' = success_atom_types st.

(** Two ring-size counters used by the examples. *)
Definition rings_5_6 : gmap Z Z := {[ 5%Z := 1%Z; 6%Z := 2%Z ]}.
Definition rings_6 : gmap Z Z := {[ 6%Z := 1%Z ]}.

(** ** Proof support: a weakest-precondition reading of the monad *)

Lemma wp_elim {A} (m : M A) st post :
  wp m st post -> post (fst (m st)) (snd (m st)).
Proof. exact (fun H => H). Qed.

Lemma wp_ret {A} (a : A) st (post : Outcome A -> State -> Prop) :
  post (Ret a) st -> wp (mret a) st post.
Proof. exact (fun H => H). Qed.

Lemma wp_bind {A B} (m : M A) (k : A -> M B) st
    (post : Outcome B -> State -> Prop) :
  wp m st (fun o st' =>
             match o with
             | Ret a => wp (k a) st' post
             | Continue => post Continue st'
             | Raise e => post (Raise e) st'
             end) ->
  wp (m ≫= k) st post.
Proof.
  unfold wp, mbind, M_bind. destruct (m st) as [[a| |e] st']; simpl; auto.
Qed.

Lemma wp_raise {A} (e : exn) st (post : Outcome A -> State -> Prop) :
  post (Raise e) st -> wp (raise e) st post.
Proof. exact (fun H => H). Qed.

Lemma wp_continue {A} st (post : Outcome A -> State -> Prop) :
  post Continue st -> wp continue st post.
Proof. exact (fun H => H). Qed.

Lemma wp_modify (f : State -> State) st
    (post : Outcome unit -> State -> Prop) :
  post (Ret tt) (f st) -> wp (modify f) st post.
Proof. exact (fun H => H). Qed.

Lemma wp_gets {A} (f : State -> A) st (post : Outcome A -> State -> Prop) :
  post (Ret (f st)) st -> wp (gets f) st post.
Proof. exact (fun H => H). Qed.

Lemma wp_emit (ev : Event) st (post : Outcome unit -> State -> Prop) :
  post (Ret tt) (record_event ev st) -> wp (emit ev) st post.
Proof. exact (fun H => H). Qed.

Lemma wp_call {A} (i : nat) (c : SampleCall) (r : result A) st
    (post : Outcome A -> State -> Prop) :
  (forall a, r = Ok a -> post (Ret a) (record_event (OnSample i c) st)) ->
  (forall e, r = Err e -> post (Raise e) (record_event (OnSample i c) st)) ->
  wp (call i c r) st post.
Proof. destruct r; unfold wp; simpl; auto. Qed.

Lemma wp_rcall {A} (c : RunCall) (r : result A) st
    (post : Outcome A -> State -> Prop) :
  (forall a, r = Ok a -> post (Ret a) (record_event (OnRun c) st)) ->
  (forall e, r = Err e -> post (Raise e) (record_event (OnRun c) st)) ->
  wp (rcall c r) st post.
Proof. destruct r; unfold wp; simpl; auto. Qed.

Lemma wp_try_except {A} (m h : M A) (catches : exn -> bool) st
    (post : Outcome A -> State -> Prop) :
  wp m st (fun o st' =>
             match o with
             | Raise e =>
                 if catches e then wp h st' post else post (Raise e) st'
             | Ret a => post (Ret a) st'
             | Continue => post Continue st'
             end) ->
  wp (try_except m catches h) st post.
Proof.
  unfold wp, try_except. destruct (m st) as [[a| |e] st']; simpl; auto.
  destruct (catches e); auto.
Qed.

Lemma wp_example_idx st (post : Outcome Z -> State -> Prop) :
  post (Raise (NameError "example_idx")) st ->
  wp (global "example_idx" example_idx) st post.
Proof. exact (fun H => H). Qed.

Lemma wp_true_div (a b : nat) st (P : Outcome Q -> State -> Prop) :
  (b = 0 -> P (Raise ZeroDivisionError) st) ->
  (0 < b -> P (Ret (inject_Z (Z.of_nat a) / inject_Z (Z.of_nat b))%Q) st) ->
  wp (true_div a b) st P.
Proof. destruct b; unfold wp; simpl; intros H1 H2; [auto | apply H2; lia]. Qed.

(** One step of symbolic execution of a script fragment. *)
Ltac wp_step :=
  lazymatch goal with
  | |- wp (_ ≫= _) _ _ => apply wp_bind
  | |- wp (mret _) _ _ => apply wp_ret
  | |- wp (call _ _ _) _ _ => apply wp_call; intros ? ?
  | |- wp (rcall _ _) _ _ => apply wp_rcall; intros ? ?
  | |- wp (modify _) _ _ => apply wp_modify
  | |- wp (gets _) _ _ => apply wp_gets
  | |- wp (emit _) _ _ => apply wp_emit
  | |- wp continue _ _ => apply wp_continue
  | |- wp (raise _) _ _ => apply wp_raise
  | |- wp (global _ example_idx) _ _ => apply wp_example_idx
  | |- wp (try_except _ _ _) _ _ => apply wp_try_except
  | |- wp (true_div _ _) _ _ => apply wp_true_div; intros ?
  | |- wp (reconstruction _ _) _ _ => unfold reconstruction
  | |- wp (reconstruct_failed _ _) _ _ => unfold reconstruct_failed
  | |- wp (chem_and_docking _ _ _) _ _ => unfold chem_and_docking
  | |- wp (evaluation_failed _ _) _ _ => unfold evaluation_failed
  | |- wp (body _ _ _) _ _ => unfold body
  | |- wp (if bool_decide (?x = ?y) then _ else _) _ _ =>
      destruct (decide (x = y));
      [rewrite bool_decide_eq_true_2 by assumption
      |rewrite bool_decide_eq_false_2 by assumption];
      try congruence
  | |- wp (if ?b then _ else _) _ _ => destruct b eqn:?
  | |- wp (match ?x with qvina => _ | vina_score => _
                       | vina_dock => _ | none => _ end) _ _ =>
      destruct x eqn:?
  | |- if catches_all _ then _ else _ => unfold catches_all
  | |- if catches_MolReconsError ?e then _ else _ =>
      unfold catches_MolReconsError;
      destruct (decide (e = MolReconsError));
      [rewrite bool_decide_eq_true_2 by assumption
      |rewrite bool_decide_eq_false_2 by assumption]
  end; cbv beta iota zeta.

Ltac wp_run := repeat wp_step.

Lemma contains_char_spec (smiles : string) :
  contains_char "."%char smiles = true <-> has_fragment_separator smiles.
Proof.
  unfold has_fragment_separator.
  induction smiles as [|c smiles IH]; cbn [contains_char list_ascii_of_string In].
  - split; [discriminate | tauto].
  - destruct (Ascii.eqb "."%char c) eqn:E.
    + apply Ascii.eqb_eq in E. subst c. split; auto.
    + apply Ascii.eqb_neq in E. rewrite IH.
      split; [auto | intros [H|H]; [congruence | exact H]].
Qed.

Lemma contains_char_false (smiles : string) :
  contains_char "."%char smiles = false <-> ~ has_fragment_separator smiles.
Proof.
  rewrite <- contains_char_spec.
  destruct (contains_char _ smiles); split; congruence.
Qed.

Lemma forallb_not_separator (smiles : string) :
  forallb (fun c => negb (Ascii.eqb c "."%char)) (list_ascii_of_string smiles)
  = negb (contains_char "."%char smiles).
Proof.
  induction smiles as [|c smiles IH];
    cbn [contains_char list_ascii_of_string forallb]; [reflexivity|].
  rewrite IH, (Ascii.eqb_sym c). destruct (Ascii.eqb "."%char c); reflexivity.
Qed.

Lemma events_since_app (st st' : State) (evs : list Event) :
  trace st' = trace st ++ evs -> events_since st st' = evs.
Proof. unfold events_since. intros ->. apply drop_app_length. Qed.

(** Turn a goal about [fst (m st)] and [snd (m st)] into a [wp] goal. *)
Ltac wp_of m st :=
  pattern (fst (m st)), (snd (m st)); apply wp_elim.

(** Two recorded answers of the same call agree. *)
Ltac same_answers :=
  repeat match goal with
  | H : ?r = Ok _, H' : ?r = Ok _ |- _ => rewrite H in H'; injection H' as <-
  | H : ?r = Ok _, H' : ?r = Err _ |- _ => rewrite H in H'; discriminate H'
  | H : ?r = Err _, H' : ?r = Ok _ |- _ => rewrite H in H'; discriminate H'
  | H : ?r = Err _, H' : ?r = Err _ |- _ => rewrite H in H'; injection H' as <-
  end.

(** Use the recorded answers in a hypothesis or in the goal. *)
Ltac answers_in Hyp :=
  repeat match goal with
  | H : _ = Ok _ |- _ => rewrite H in Hyp
  | H : _ = Err _ |- _ => rewrite H in Hyp
  | H : docking_mode _ = _ |- _ => rewrite H in Hyp
  | H : contains_char _ _ = _ |- _ => rewrite H in Hyp
  end; simpl in Hyp.

Ltac answers :=
  repeat match goal with
  | H : _ = Ok _ |- _ => rewrite H
  | H : _ = Err _ |- _ => rewrite H
  | H : docking_mode _ = _ |- _ => rewrite H
  | H : contains_char _ _ = _ |- _ => rewrite H
  end; simpl.

(** *** The loop *)

Lemma for_enumerate_cons {A} (f : nat -> A -> M unit) i x xs st :
  for_enumerate f i (x :: xs) st =
  match f i x st with
  | (Raise e, st') => (Raise e, st')
  | (_, st') => for_enumerate f (S i) xs st'
  end.
Proof. reflexivity. Qed.

(** The loop ends normally or by an exception, never by [continue]. *)
Lemma for_enumerate_outcome {A} (f : nat -> A -> M unit) xs : forall i st,
  fst (for_enumerate f i xs st) = Ret tt \/
  exists e, fst (for_enumerate f i xs st) = Raise e.
Proof.
  induction xs as [|x xs IH]; intros i st; [left; reflexivity|].
  rewrite for_enumerate_cons.
  destruct (f i x st) as [[[]| |e] st']; simpl; eauto.
Qed.

(** An invariant of the iterations holds when the loop is left, however it
    is left. *)
Lemma for_enumerate_invariant {A} (f : nat -> A -> M unit)
    (I : nat -> State -> Prop) (xs : list A) :
  (forall k st, I k st -> I (S k) st) ->
  (forall i x k st, In x xs -> I k st -> I (S k) (snd (f i x st))) ->
  forall i k st, I k st -> I (k + length xs) (snd (for_enumerate f i xs st)).
Proof.
  intros Hmono. induction xs as [|x xs IH]; intros Hstep i k st HI.
  - simpl. rewrite Nat.add_0_r. exact HI.
  - rewrite for_enumerate_cons.
    pose proof (Hstep i x k st (or_introl eq_refl) HI) as Hx.
    assert (Hrest : forall i x k st, In x xs -> I k st -> I (S k) (snd (f i x st)))
      by (intros; apply Hstep; [right|]; assumption).
    destruct (f i x st) as [[[]| |e] st']; simpl in *.
    + replace (k + S (length xs)) with (S k + length xs) by lia. auto.
    + replace (k + S (length xs)) with (S k + length xs) by lia. auto.
    + clear IH Hstep Hrest. induction (length xs) as [|n IHn].
      * replace (k + 1) with (S k) by lia. exact Hx.
      * replace (k + S (S n)) with (S (k + S n)) by lia. auto.
Qed.

Lemma for_enumerate_preserves {A} (f : nat -> A -> M unit)
    (I : State -> Prop) (xs : list A) :
  (forall i x st, In x xs -> I st -> I (snd (f i x st))) ->
  forall i st, I st -> I (snd (for_enumerate f i xs st)).
Proof.
  intros Hstep i st HI.
  apply (for_enumerate_invariant f (fun _ => I)) with (k := 0); auto.
Qed.

(** When the loop ends normally every iteration ended without an exception,
    so a relation established by each such iteration can be chained. *)
Lemma for_enumerate_normal {A} (f : nat -> A -> M unit)
    (R : nat -> list A -> State -> State -> Prop) :
  (forall i st, R i [] st st) ->
  (forall i x xs st st',
      (forall e, fst (f i x st) <> Raise e) ->
      R (S i) xs (snd (f i x st)) st' -> R i (x :: xs) st st') ->
  forall xs i st,
    fst (for_enumerate f i xs st) = Ret tt ->
    R i xs st (snd (for_enumerate f i xs st)).
Proof.
  intros Hnil Hcons. induction xs as [|x xs IH]; intros i st Hret.
  - apply Hnil.
  - rewrite for_enumerate_cons in *.
    apply Hcons.
    + intros e He. destruct (f i x st) as [[[]| |e'] st']; simpl in *; congruence.
    + destruct (f i x st) as [[[]| |e'] st']; simpl in *;
        try discriminate; apply IH; exact Hret.
Qed.


(** ** The stability branch (lines 66-75) *)

(** C6.  On every sample for which the decoder, the stability checker and
    the distance extractor return, the loop body adds the verdict to
    [all_mol_stable], [all_atom_stable] and [all_n_atom], adds the atom types
    to [all_atom_types] and appends the pair distances to [all_pair_dist],
    each exactly once, whatever the arguments are and whatever the
    reconstruction, completeness and evaluation stages answer afterwards. *)
Theorem stability_branch_not_gated
    (args : Args) (sample_idx : nat) (s : Sample) (st : State)
    (pred_atom_type : list Z) (r_stable : StabilityVerdict)
    (pair_dist : list PairDist) :
  get_atomic_number_from_index s = Ok pred_atom_type ->
  check_stability s = Ok r_stable ->
  pair_distance_from_pos_v s = Ok pair_dist ->
  let st' := snd (body args sample_idx s st) in
  all_mol_stable st' = all_mol_stable st + Nat.b2n (molecule_stable r_stable) /\
  all_atom_stable st' = all_atom_stable st + n_stable_atoms r_stable /\
  all_n_atom st' = all_n_atom st + n_atoms r_stable /\
  all_atom_types st' = all_atom_types st ⊎ Counter pred_atom_type /\
  all_pair_dist st' = all_pair_dist st ++ pair_dist.
Proof.
  intros Hd Hs Hp st'. subst st'.
  wp_of (body args sample_idx s) st.
  wp_run; same_answers; simpl; repeat split; reflexivity.
Qed.

Lemma stability_branch_not_gated_witness :
  get_atomic_number_from_index sample_recon_fails = Ok [6; 6; 8]%Z /\
  let st' := snd (body (mk_args true vina_dock) 0 sample_recon_fails init_state) in
  all_mol_stable st' = 0 /\ all_atom_stable st' = 2 /\ all_n_atom st' = 3 /\
  all_atom_types st' = ∅ ⊎ Counter [6; 6; 8]%Z /\
  all_pair_dist st' = ethanol_pairs.
Proof.
  split; [reflexivity|].
  apply (stability_branch_not_gated (mk_args true vina_dock) 0
           sample_recon_fails init_state [6; 6; 8]%Z
           {| molecule_stable := false; n_stable_atoms := 2; n_atoms := 3 |}
           ethanol_pairs); reflexivity.
Defined.

(** ** The completeness check (lines 88-90) *)

(** C5.  On a sample that reaches the reconstruction stage and whose
    reconstruction succeeds with canonical string [smiles]: when [smiles]
    has no ['.'] the body increments [n_complete] and goes on to call
    [get_chem]; when it has one, [n_complete] is unchanged, the iteration
    ends by [continue] and [get_chem] is not called. *)
Theorem complete_iff_no_separator
    (args : Args) (sample_idx : nat) (s : Sample) (st : State)
    (smiles : string) :
  reaches_reconstruction s = true ->
  passes_reconstruction s = true ->
  MolToSmiles s = Ok smiles ->
  let st' := snd (body args sample_idx s st) in
  (~ has_fragment_separator smiles ->
     n_complete st' = n_complete st + 1 /\
     In (OnSample sample_idx CGetChem) (events_since st st')) /\
  (has_fragment_separator smiles ->
     n_complete st' = n_complete st /\
     fst (body args sample_idx s st) = Continue /\
     ~ In (OnSample sample_idx CGetChem) (events_since st st')).
Proof.
  intros Hreach Hrec Hsm st'. subst st'.
  unfold reaches_reconstruction, passes_reconstruction in *.
  rewrite <- contains_char_false, <- contains_char_spec.
  wp_of (body args sample_idx s) st.
  wp_run; answers_in Hreach; answers_in Hrec; try discriminate; same_answers.
  all: split; intros Hc; try congruence.
  all: split; [reflexivity|].
  all: try (split; [reflexivity|]).
  all: erewrite events_since_app;
    [|simpl; rewrite <- !app_assoc; reflexivity].
  all: simpl; try tauto.
  intros Hin; repeat destruct Hin as [Hin|Hin]; try discriminate; auto.
Qed.

Lemma complete_iff_no_separator_witness :
  (~ has_fragment_separator "CCO" /\ has_fragment_separator "CC.O") /\
  n_complete (snd (body (mk_args false none) 0 sample_success init_state)) = 1 /\
  n_complete (snd (body (mk_args false none) 0 sample_incomplete init_state)) = 0.
Proof.
  assert (Hno : ~ has_fragment_separator "CCO")
    by (unfold has_fragment_separator; simpl;
        intros [H|[H|[H|H]]]; (discriminate H || exact H)).
  assert (Hyes : has_fragment_separator "CC.O")
    by (unfold has_fragment_separator; simpl; right; right; left; reflexivity).
  split; [split; assumption|]. split.
  - apply (complete_iff_no_separator (mk_args false none) 0 sample_success
             init_state "CCO" eq_refl eq_refl eq_refl). exact Hno.
  - apply (complete_iff_no_separator (mk_args false none) 0 sample_incomplete
             init_state "CC.O" eq_refl eq_refl eq_refl). exact Hyes.
Defined.

(** ** The chemical and docking check (lines 92-118) *)

Ltac unfold_spec :=
  unfold reaches_evaluation, reaches_reconstruction, passes_reconstruction,
    passes_completeness, passes_evaluation, docking_returns, is_success,
    pairs_of, bonds_of, atom_types_of, from_ok in *.

Ltac events_now :=
  erewrite events_since_app; [|simpl; rewrite <- ?app_assoc; reflexivity].

Ltac decide_in Hyp :=
  answers_in Hyp; rewrite ?forallb_not_separator in Hyp; answers_in Hyp.

(** C8, as the code has it.  Without [--verbose], on a sample counted
    complete: when a call of the chemical/docking stage raises, the iteration
    ends by [continue] with [n_eval_success], [all_bond_dist],
    [success_pair_dist] and [success_atom_types] unchanged; when all its
    calls return, [n_eval_success] is incremented.  Under docking mode
    [none] no docking call is made and the stage succeeds exactly when
    [get_chem] returns; under [vina_score] a successful stage ran
    [score_only] then [minimize], under [vina_dock] it ran [dock] as well. *)
Theorem evaluation_failure_is_contained
    (args : Args) (sample_idx : nat) (s : Sample) (st : State) :
  verbose args = false ->
  reaches_evaluation s = true ->
  let r := body args sample_idx s st in
  let st' := snd r in
  let exh := exhaustiveness args in
  (passes_evaluation args s = false ->
     fst r = Continue /\
     n_eval_success st' = n_eval_success st /\
     all_bond_dist st' = all_bond_dist st /\
     success_pair_dist st' = success_pair_dist st /\
     success_atom_types st' = success_atom_types st) /\
  (passes_evaluation args s = true ->
     n_eval_success st' = n_eval_success st + 1) /\
  (docking_mode args = none ->
     docking_calls (events_since st st') = [] /\
     n_eval_success st' =
       n_eval_success st + (if is_ok (get_chem s) then 1 else 0)) /\
  (docking_mode args = vina_score -> passes_evaluation args s = true ->
     docking_calls (events_since st st') =
       [CVinaTask; CVinaRun score_only exh; CVinaRun minimize exh]) /\
  (docking_mode args = vina_dock -> passes_evaluation args s = true ->
     docking_calls (events_since st st') =
       [CVinaTask; CVinaRun score_only exh; CVinaRun minimize exh;
        CVinaRun dock exh]).
Proof.
  intros Hv Hreach r st' exh. subst r st' exh.
  unfold_spec.
  wp_of (body args sample_idx s) st.
  wp_run; try congruence; decide_in Hreach; try discriminate.
  all: answers.
  all: repeat split; try reflexivity; try discriminate; try congruence.
  all: intros; try discriminate; try events_now; try reflexivity; try lia.
Qed.

Lemma evaluation_failure_is_contained_witness :
  let r := body (mk_args false vina_dock) 0 sample_dock_fails init_state in
  passes_evaluation (mk_args false vina_dock) sample_dock_fails = false /\
  fst r = Continue /\ n_eval_success (snd r) = 0 /\
  all_bond_dist (snd r) = [] /\ success_pair_dist (snd r) = [] /\
  success_atom_types (snd r) = ∅.
Proof.
  split; [reflexivity|].
  apply (evaluation_failure_is_contained (mk_args false vina_dock) 0
           sample_dock_fails init_state eq_refl eq_refl).
  reflexivity.
Defined.

(** C8 as stated fails in two ways.  Under docking mode [none] the stage
    does not always succeed: [get_chem] is called under the same [try], and
    when it raises the complete sample is not counted as evaluated.  And
    with [--verbose] a failure of the stage does not let the loop go on: the
    handler reads [example_idx], the [NameError] leaves the loop and the
    next sample is never decoded. *)
Lemma evaluation_stage_counterexample :
  (docking_mode (mk_args false none) = none /\
   n_complete (snd (body (mk_args false none) 0 sample_chem_fails init_state)) = 1 /\
   n_eval_success (snd (body (mk_args false none) 0 sample_chem_fails init_state)) = 0) /\
  (let r := sample_loop (mk_args true vina_dock)
                        [sample_dock_fails; sample_success] init_state in
   fst r = Raise (NameError "example_idx") /\
   ~ In (OnSample 1 CDecode) (trace (snd r))).
Proof.
  split; [repeat split|]. split; [reflexivity|].
  intros Hin. vm_compute in Hin.
  repeat destruct Hin as [Hin|Hin]; try discriminate Hin. exact Hin.
Qed.

(** ** Failures and the sample loop (lines 63-118) *)






(** ** The accumulators (lines 58-60, 75, 120-125) *)

Lemma body_accumulates (args : Args) (i : nat) (s : Sample) (st : State) :
  (forall e, fst (body args i s st) <> Raise e) ->
  accumulated args [s] st (snd (body args i s st)).
Proof.
  cut ((fun o st' => (forall e, o <> Raise e) -> accumulated args [s] st st')
         (fst (body args i s st)) (snd (body args i s st))); [auto|].
  apply wp_elim.
  wp_run; intros Hne; try (exfalso; eapply Hne; reflexivity).
  all: unfold accumulated, atom_types_sum; cbn [List.filter];
    unfold is_success; unfold_spec; answers;
    rewrite ?forallb_not_separator; answers.
  all: answers; rewrite ?app_nil_r; repeat split; try reflexivity;
    try multiset_solver.
Qed.

Lemma accumulated_cons args x xs st st1 st2 :
  accumulated args [x] st st1 -> accumulated args xs st1 st2 ->
  accumulated args (x :: xs) st st2.
Proof.
  unfold accumulated, atom_types_sum. simpl.
  intros (H1 & H2 & H3 & H4) (K1 & K2 & K3 & K4).
  rewrite K1, K2, K3, K4, H1, H2, H3, H4.
  destruct (is_success args x); simpl; rewrite ?app_nil_r, <- ?app_assoc;
    repeat split; try reflexivity; multiset_solver.
Qed.

Lemma loop_accumulates (args : Args) (xs : list Sample) (st : State) :
  fst (sample_loop args xs st) = Ret tt ->
  accumulated args xs st (snd (sample_loop args xs st)).
Proof.
  unfold sample_loop.
  apply (for_enumerate_normal (body args) (fun _ => accumulated args)).
  - intros _ st0. unfold accumulated, atom_types_sum. simpl.
    rewrite !app_nil_r. repeat split; try reflexivity. multiset_solver.
  - intros i x l st0 st' Hne Hrest.
    eapply accumulated_cons; [apply body_accumulates, Hne | exact Hrest].
Qed.

(** ** The reporting phase *)

Lemma print_dict_events (d : MetricDict) : forall st,
  print_dict d st = (Ret tt, record_events (map metric_line d) st).
Proof.
  induction d as [|[k v] d IH]; intros st.
  - destruct st. unfold record_events; simpl. rewrite app_nil_r. reflexivity.
  - simpl. unfold mbind, M_bind, emit, modify.
    destruct v; rewrite IH; unfold record_events; simpl;
      rewrite <- app_assoc; reflexivity.
Qed.

Lemma wp_print_dict (d : MetricDict) st (P : Outcome unit -> State -> Prop) :
  P (Ret tt) (record_events (map metric_line d) st) -> wp (print_dict d) st P.
Proof. unfold wp. rewrite print_dict_events. auto. Qed.

(** A run is the loop followed, when the loop ends normally, by the
    reporting phase. *)
Lemma run_after_loop (args : Args) (ev : Evaluator) (xs : list Sample) :
  run args ev xs =
  match after_loop args xs with
  | (Ret _, st) => report args ev (length xs) st
  | (Continue, st) => (Continue, st)
  | (Raise e, st) => (Raise e, st)
  end.
Proof.
  unfold run, main, after_loop, mbind, M_bind, emit, modify.
  destruct (sample_loop args xs _) as [[[]| |e] st]; reflexivity.
Qed.

Ltac wp_report_step :=
  lazymatch goal with
  | |- wp (print_dict _) _ _ => apply wp_print_dict; cbv beta iota zeta
  | |- wp (validity_dict _) _ _ => unfold validity_dict
  | |- wp (report _ _ _) _ _ => unfold report
  | _ => wp_step
  end.

Ltac wp_report := repeat wp_report_step.

Lemma true_div_frac (a b : nat) :
  0 < b -> (inject_Z (Z.of_nat a) / inject_Z (Z.of_nat b) == frac a b)%Q.
Proof.
  intros Hb. destruct b as [|b]; [lia|].
  unfold frac, Qdiv, Qinv, Qmult, Qeq, inject_Z.
  rewrite <- Pos.of_nat_succ. simpl. lia.
Qed.

Lemma frac_bounds (a b : nat) :
  0 < b -> a <= b -> (0 <= frac a b /\ frac a b <= 1)%Q.
Proof.
  intros Hb Hab. unfold frac, Qle. simpl.
  assert (Z.pos (Pos.of_nat b) = Z.of_nat b) as ->.
  { destruct b; [lia|]. rewrite <- Pos.of_nat_succ. lia. }
  lia.
Qed.

Lemma frac_le (a a' b : nat) : a <= a' -> (frac a b <= frac a' b)%Q.
Proof. intros Hab. unfold frac, Qle. simpl. nia. Qed.

Lemma validity_dict_spec (n : nat) (st : State) :
  validity_spec n st (fst (validity_dict n st)) /\
  snd (validity_dict n st) = st.
Proof.
  wp_of (validity_dict n) st.
  wp_report; simpl; (split; [|reflexivity]); auto; try lia.
  repeat split; try assumption.
  do 5 eexists. split; [reflexivity|].
  repeat split; apply true_div_frac; assumption.
Qed.

(** ** Events, results and counters along a run *)

Lemma Forall_metric_lines (P : Event -> Prop) (d : MetricDict) :
  (forall k v, P (Info (Metric k v))) -> Forall P (map metric_line d).
Proof.
  intros HP. induction d as [|[k v] d IH]; simpl; constructor; auto.
  apply HP.
Qed.

Ltac forall_events :=
  repeat lazymatch goal with
  | |- Forall _ [] => constructor
  | |- Forall _ (_ :: _) => constructor; [simpl; auto|]
  | |- Forall _ (_ ++ _) => apply Forall_app; split
  | |- Forall _ (map metric_line _) =>
      apply Forall_metric_lines; intros; exact I
  end.

Ltac trace_now :=
  eexists; split;
  [simpl; rewrite <- ?app_assoc; reflexivity | forall_events].

Lemma body_events (args : Args) (i : nat) (s : Sample) (st : State) :
  exists evs, trace (snd (body args i s st)) = trace st ++ evs /\
              Forall loop_event evs.
Proof.
  wp_of (body args i s) st.
  wp_run; trace_now.
Qed.

Lemma loop_events (args : Args) (xs : list Sample) (st : State) :
  exists evs, trace (snd (sample_loop args xs st)) = trace st ++ evs /\
              Forall loop_event evs.
Proof.
  unfold sample_loop.
  apply (for_enumerate_preserves (body args)
    (fun st' => exists evs, trace st' = trace st ++ evs /\ Forall loop_event evs)).
  - intros i x st' _ (evs & Ht & Hev).
    destruct (body_events args i x st') as (evs' & Ht' & Hev').
    exists (evs ++ evs'). split.
    + rewrite Ht', Ht, app_assoc. reflexivity.
    + apply Forall_app. split; assumption.
  - exists []. rewrite app_nil_r. split; [reflexivity | constructor].
Qed.

Lemma body_results (args : Args) (i : nat) (s : Sample) (st : State) :
  results (snd (body args i s st)) = results st.
Proof. wp_of (body args i s) st. wp_run; reflexivity. Qed.

Lemma loop_results (args : Args) (xs : list Sample) (st : State) :
  results (snd (sample_loop args xs st)) = results st.
Proof.
  unfold sample_loop.
  apply (for_enumerate_preserves (body args)
           (fun st' => results st' = results st)); [|reflexivity].
  intros i x st' _ H. rewrite body_results. exact H.
Qed.

Lemma body_gates (args : Args) (i : nat) (s : Sample) (k : nat) (st : State) :
  gates_inv k st -> gates_inv (S k) (snd (body args i s st)).
Proof.
  unfold gates_inv. intros Hinv.
  wp_of (body args i s) st.
  wp_run; simpl;
    repeat match goal with
    | |- context [Nat.b2n ?b] => destruct b; simpl
    end; lia.
Qed.

Lemma body_atoms (args : Args) (i : nat) (s : Sample) (st : State) :
  verdict_wf s ->
  all_atom_stable st <= all_n_atom st ->
  all_atom_stable (snd (body args i s st)) <= all_n_atom (snd (body args i s st)).
Proof.
  unfold verdict_wf. intros Hwf Hinv.
  wp_of (body args i s) st.
  wp_run; answers_in Hwf; simpl; lia.
Qed.

Lemma report_events (args : Args) (ev : Evaluator) (n : nat) (st : State) :
  let r := report args ev n st in
  results (snd r) = results st /\
  (exists evs, trace (snd r) = trace st ++ evs /\
               Forall (report_event n st) evs) /\
  (fst r = Ret tt ->
   list.last (trace (snd r)) =
   Some (Info (Summary (n_recon_success st) (n_complete st)
                       (length (results st))))).
Proof.
  intros r. subst r.
  wp_of (report args ev n) st.
  wp_report.
  all: split; [reflexivity|]; split.
  all: try (intros Hr; try discriminate Hr; simpl; apply last_snoc).
  all: eexists; split; [simpl; rewrite <- ?app_assoc; reflexivity|].
  all: simpl.
  all: forall_events.
Qed.

(** ** The events of a run *)

Lemma after_loop_events (args : Args) (xs : list Sample) :
  exists evs,
    trace (snd (after_loop args xs)) = Info (LoadDone (length xs)) :: evs /\
    Forall loop_event evs.
Proof.
  unfold after_loop.
  destruct (loop_events args xs
              (record_event (Info (LoadDone (length xs))) init_state))
    as (evs & Ht & Hev).
  exists evs. split; [rewrite Ht; reflexivity | exact Hev].
Qed.

Lemma after_loop_results (args : Args) (xs : list Sample) :
  results (snd (after_loop args xs)) = [].
Proof. unfold after_loop. rewrite loop_results. reflexivity. Qed.

(** The events of a whole run: the loading line, the events of the loop,
    then those of the reporting phase. *)
Lemma run_events (args : Args) (ev : Evaluator) (xs : list Sample) :
  exists evs1 evs2,
    trace (snd (run args ev xs)) =
      Info (LoadDone (length xs)) :: evs1 ++ evs2 /\
    Forall loop_event evs1 /\
    Forall (report_event (length xs) (snd (after_loop args xs))) evs2.
Proof.
  destruct (after_loop_events args xs) as (evs1 & Ht & Hev1).
  rewrite run_after_loop.
  destruct (after_loop args xs) as [[[]| |e] st] eqn:Hal; simpl in *.
  - destruct (report_events args ev (length xs) st) as (_ & (evs2 & Ht2 & Hev2) & _).
    exists evs1, evs2. rewrite Ht2, Ht. auto.
  - exists evs1, []. rewrite app_nil_r. auto.
  - exists evs1, []. rewrite app_nil_r. auto.
Qed.

(** ** What the accumulators and the profiles are built from *)

(** C2.  When the loop of a run ends normally, [all_pair_dist] holds the pair
    distances of every sample, while [success_pair_dist], [all_bond_dist] and
    [success_atom_types] hold the records of exactly the samples that pass
    reconstruction, the completeness check and the chemical/docking
    evaluation; the list handed to [get_bond_length_profile] (the profile
    logged as that of the complete molecules) and the list handed to
    [get_pair_length_profile] are built from those samples only. *)
Theorem success_accumulators_hold_success_set
    (args : Args) (ev : Evaluator) (all_results : list Sample) :
  fst (after_loop args all_results) = Ret tt ->
  let st := snd (after_loop args all_results) in
  let success := List.filter (is_success args) all_results in
  all_pair_dist st = flat_map pairs_of all_results /\
  success_pair_dist st = flat_map pairs_of success /\
  all_bond_dist st = flat_map bonds_of success /\
  success_atom_types st = atom_types_sum success /\
  (forall arg,
      In (OnRun (CBondProfile arg)) (trace (snd (run args ev all_results))) ->
      arg = flat_map bonds_of success) /\
  (forall arg,
      In (OnRun (CPairProfile arg)) (trace (snd (run args ev all_results))) ->
      arg = flat_map pairs_of success).
Proof.
  intros Hret st success.
  destruct (loop_accumulates args all_results _ Hret) as (H1 & H2 & H3 & H4).
  fold (after_loop args all_results) in H1, H2, H3, H4. fold st in H1, H2, H3, H4.
  simpl in H1, H2, H3, H4. fold success in H2, H3, H4.
  assert (H4' : success_atom_types st = atom_types_sum success)
    by (rewrite H4; multiset_solver).
  repeat split; try assumption.
  - intros arg Hin.
    destruct (run_events args ev all_results) as (evs1 & evs2 & Ht & Hev1 & Hev2).
    rewrite Ht in Hin. destruct Hin as [Hin|Hin]; [discriminate|].
    apply in_app_or in Hin. destruct Hin as [Hin|Hin].
    + rewrite List.Forall_forall in Hev1. destruct (Hev1 _ Hin).
    + rewrite List.Forall_forall in Hev2. specialize (Hev2 _ Hin).
      simpl in Hev2. fold st in Hev2. rewrite Hev2. exact H3.
  - intros arg Hin.
    destruct (run_events args ev all_results) as (evs1 & evs2 & Ht & Hev1 & Hev2).
    rewrite Ht in Hin. destruct Hin as [Hin|Hin]; [discriminate|].
    apply in_app_or in Hin. destruct Hin as [Hin|Hin].
    + rewrite List.Forall_forall in Hev1. destruct (Hev1 _ Hin).
    + rewrite List.Forall_forall in Hev2. specialize (Hev2 _ Hin).
      simpl in Hev2. fold st in Hev2. rewrite Hev2. exact H2.
Qed.

Lemma success_accumulators_hold_success_set_witness :
  let args := mk_args false vina_dock in
  let all_results :=
    [sample_success; sample_recon_fails; sample_incomplete; sample_dock_fails;
     sample_success] in
  fst (after_loop args all_results) = Ret tt /\
  all_pair_dist (snd (after_loop args all_results)) =
    flat_map pairs_of all_results /\
  all_bond_dist (snd (after_loop args all_results)) =
    flat_map bonds_of [sample_success; sample_success].
Proof.
  intros args all_results.
  assert (Hret : fst (after_loop args all_results) = Ret tt) by reflexivity.
  split; [exact Hret|].
  destruct (success_accumulators_hold_success_set args plain_evaluator
              all_results Hret) as (H1 & _ & H3 & _).
  split; [exact H1 | exact H3].
Defined.

(** ** The closing log line (lines 57, 160-161) *)

(** C10.  In every run [results] is empty at the end, every summary line
    the run logs reports 0 evaluated molecules, and a run that ends normally
    ends with such a line, whatever [n_eval_success] is. *)
Theorem evaluated_count_logged_is_zero
    (args : Args) (ev : Evaluator) (all_results : list Sample) :
  let r := run args ev all_results in
  results (snd r) = [] /\
  (forall a b c, In (Info (Summary a b c)) (trace (snd r)) -> c = 0) /\
  (fst r = Ret tt ->
   exists a b, list.last (trace (snd r)) = Some (Info (Summary a b 0))).
Proof.
  intros r. subst r. split; [|split].
  - rewrite run_after_loop.
    pose proof (after_loop_results args all_results) as Hres.
    destruct (after_loop args all_results) as [[[]| |e] st]; simpl in *; auto.
    destruct (report_events args ev (length all_results) st) as (Hr & _).
    rewrite Hr. exact Hres.
  - intros a b c Hin.
    destruct (run_events args ev all_results) as (evs1 & evs2 & Ht & Hev1 & Hev2).
    rewrite Ht in Hin. destruct Hin as [Hin|Hin]; [discriminate|].
    apply in_app_or in Hin. destruct Hin as [Hin|Hin].
    + rewrite List.Forall_forall in Hev1. destruct (Hev1 _ Hin).
    + rewrite List.Forall_forall in Hev2. specialize (Hev2 _ Hin).
      simpl in Hev2. destruct Hev2 as (_ & _ & ->).
      rewrite after_loop_results. reflexivity.
  - rewrite run_after_loop.
    pose proof (after_loop_results args all_results) as Hres.
    destruct (after_loop args all_results) as [[[]| |e] st]; simpl in *;
      try discriminate.
    intros Hret.
    destruct (report_events args ev (length all_results) st) as (_ & _ & Hl).
    rewrite (Hl Hret), Hres. eauto.
Qed.

Lemma evaluated_count_logged_is_zero_witness :
  let r := run (mk_args false none) plain_evaluator
               [sample_success; sample_success] in
  fst r = Ret tt /\ n_eval_success (snd r) = 2 /\
  In (Info (Summary 2 2 0)) (trace (snd r)) /\
  exists a b, list.last (trace (snd r)) = Some (Info (Summary a b 0)).
Proof.
  intros r.
  assert (Hret : fst r = Ret tt) by reflexivity.
  split; [exact Hret|]. split; [reflexivity|]. split.
  - vm_compute. repeat (first [left; reflexivity | right]).
  - apply (evaluated_count_logged_is_zero (mk_args false none) plain_evaluator
             [sample_success; sample_success]). exact Hret.
Defined.

Lemma loop_gates (args : Args) (xs : list Sample) (st : State) (k : nat) :
  gates_inv k st -> gates_inv (k + length xs) (snd (sample_loop args xs st)).
Proof.
  unfold sample_loop.
  apply (for_enumerate_invariant (body args) gates_inv).
  - unfold gates_inv. intros; lia.
  - intros i x k0 st0 _. apply body_gates.
Qed.

Lemma after_loop_gates (args : Args) (xs : list Sample) :
  gates_inv (length xs) (snd (after_loop args xs)).
Proof.
  unfold after_loop. apply (loop_gates args xs _ 0).
  unfold gates_inv. simpl. lia.
Qed.

Lemma after_loop_atoms (args : Args) (xs : list Sample) :
  Forall verdict_wf xs ->
  all_atom_stable (snd (after_loop args xs))
  <= all_n_atom (snd (after_loop args xs)).
Proof.
  intros Hwf. unfold after_loop, sample_loop.
  apply (for_enumerate_preserves (body args)
           (fun st => all_atom_stable st <= all_n_atom st)).
  - intros i x st Hin. apply body_atoms.
    rewrite List.Forall_forall in Hwf. apply Hwf, Hin.
  - simpl. lia.
Qed.

Ltac dict_entry H :=
  simpl in H;
  repeat (destruct H as [H|H];
          [first [discriminate H | inversion H; subst; clear H] |]);
  try destruct H.

(** ** Counters and fractions (lines 86-90, 114, 129-140) *)

(** C3.  When each verdict of the stability checker counts its stable atoms
    among the atoms of its sample, the counters of a run satisfy
    [n_complete <= n_recon_success <= num_samples] when the loop is left,
    and every fraction [validity_dict] then computes ([mol_stable],
    [atm_stable], [recon_success], [eval_success], [complete]) lies in
    [0, 1]. *)
Theorem fractions_in_unit_interval (args : Args) (all_results : list Sample) :
  Forall verdict_wf all_results ->
  let st := snd (after_loop args all_results) in
  let num_samples := length all_results in
  (n_complete st <= n_recon_success st /\ n_recon_success st <= num_samples) /\
  forall d k v,
    fst (validity_dict num_samples st) = Ret d ->
    In (k, v) d ->
    exists q, v = Some q /\ (0 <= q /\ q <= 1)%Q.
Proof.
  intros Hwf st n.
  destruct (after_loop_gates args all_results) as (Hec & Hcr & Hrn & Hmn).
  pose proof (after_loop_atoms args all_results Hwf) as Hat.
  fold st in Hec, Hcr, Hrn, Hmn, Hat. fold n in Hrn, Hmn.
  split; [split; assumption|].
  intros d k v Hd Hin.
  destruct (validity_dict_spec n st) as [Hspec _]. rewrite Hd in Hspec.
  destruct Hspec as (Hn & Ha & q1 & q2 & q3 & q4 & q5 & -> & E1 & E2 & E3 & E4 & E5).
  dict_entry Hin; eexists; (split; [reflexivity|]).
  - rewrite E1. apply frac_bounds; lia.
  - rewrite E2. apply frac_bounds; lia.
  - rewrite E3. apply frac_bounds; lia.
  - rewrite E4. apply frac_bounds; lia.
  - rewrite E5. apply frac_bounds; lia.
Qed.

Lemma fractions_in_unit_interval_witness :
  let all_results := [sample_success; sample_recon_fails; sample_chem_fails] in
  let st := snd (after_loop (mk_args false none) all_results) in
  Forall verdict_wf all_results /\
  n_complete st <= n_recon_success st /\ n_recon_success st <= 3.
Proof.
  intros all_results st.
  assert (Hwf : Forall verdict_wf all_results)
    by (repeat constructor; unfold verdict_wf; simpl; lia).
  split; [exact Hwf|].
  apply (fractions_in_unit_interval (mk_args false none) all_results Hwf).
Defined.

(** C9.  Every iteration of the loop keeps [n_eval_success <= n_complete],
    so it holds when the loop of a run is left, by its end or by an
    exception; and when [validity_dict] computes the fractions, the
    [eval_success] fraction is at most the [complete] fraction. *)
Theorem eval_success_le_complete (args : Args) (all_results : list Sample) :
  (forall i s st,
      n_eval_success st <= n_complete st ->
      n_eval_success (snd (body args i s st))
      <= n_complete (snd (body args i s st))) /\
  (let st := snd (after_loop args all_results) in
   n_eval_success st <= n_complete st /\
   forall d qe qc,
     fst (validity_dict (length all_results) st) = Ret d ->
     In ("eval_success", Some qe) d ->
     In ("complete", Some qc) d ->
     (qe <= qc)%Q).
Proof.
  split.
  - intros i s st Hinv. wp_of (body args i s) st. wp_run; simpl; lia.
  - intros st.
    destruct (after_loop_gates args all_results) as (Hec & _). fold st in Hec.
    split; [exact Hec|].
    intros d qe qc Hd Hine Hinc.
    destruct (validity_dict_spec (length all_results) st) as [Hspec _].
    rewrite Hd in Hspec.
    destruct Hspec as (Hn & Ha & q1 & q2 & q3 & q4 & q5 & -> & E1 & E2 & E3 & E4 & E5).
    dict_entry Hine. dict_entry Hinc.
    rewrite E4, E5. apply frac_le. exact Hec.
Qed.

Lemma eval_success_le_complete_witness :
  let st := snd (body (mk_args false vina_score) 0 sample_success init_state) in
  n_eval_success init_state <= n_complete init_state /\
  n_eval_success st <= n_complete st.
Proof.
  intros st.
  assert (H0 : n_eval_success init_state <= n_complete init_state)
    by (simpl; lia).
  split; [exact H0|].
  apply (proj1 (eval_success_le_complete (mk_args false vina_score) [])
           0 sample_success init_state H0).
Defined.

Lemma report_validity_lines (args : Args) (ev : Evaluator) (n : nat) (st : State) :
  0 < n -> 0 < all_n_atom st ->
  exists evs, trace (snd (report args ev n st)) = trace st ++ evs /\
  exists q1 q2 q3 q4 q5 rest,
    evs = validity_lines n q1 q2 q3 q4 q5 ++ rest /\
    (q1 == frac (all_mol_stable st) n)%Q /\
    (q2 == frac (all_atom_stable st) (all_n_atom st))%Q /\
    (q3 == frac (n_recon_success st) n)%Q /\
    (q4 == frac (n_eval_success st) n)%Q /\
    (q5 == frac (n_complete st) n)%Q.
Proof.
  intros Hn Ha.
  wp_of (report args ev n) st.
  wp_report; try (simpl in *; lia).
  all: eexists; split; [simpl; rewrite <- ?app_assoc; reflexivity|].
  all: do 6 eexists; split; [simpl; reflexivity|].
  all: repeat split; apply true_div_frac; assumption.
Qed.

(** ** The validity dictionary (lines 129-141) *)

(** C7.  When the loop of a run over a non-empty input ends normally and
    atoms were counted, the first lines the run logs after the loop are the
    end-of-loop line and the five entries of [validity_dict], each once and
    in this order: [mol_stable] is [all_mol_stable / num_samples],
    [atm_stable] is [all_atom_stable / all_n_atom], [recon_success] is
    [n_recon_success / num_samples], [eval_success] is
    [n_eval_success / num_samples] and [complete] is
    [n_complete / num_samples], on the counters the loop left. *)
Theorem report_maps_keys_to_counter_ratios
    (args : Args) (ev : Evaluator) (all_results : list Sample) :
  fst (after_loop args all_results) = Ret tt ->
  let st := snd (after_loop args all_results) in
  let num_samples := length all_results in
  0 < num_samples ->
  0 < all_n_atom st ->
  exists q1 q2 q3 q4 q5 rest,
    trace (snd (run args ev all_results)) =
      trace st ++ validity_lines num_samples q1 q2 q3 q4 q5 ++ rest /\
    (q1 == frac (all_mol_stable st) num_samples)%Q /\
    (q2 == frac (all_atom_stable st) (all_n_atom st))%Q /\
    (q3 == frac (n_recon_success st) num_samples)%Q /\
    (q4 == frac (n_eval_success st) num_samples)%Q /\
    (q5 == frac (n_complete st) num_samples)%Q.
Proof.
  intros Hret st n Hn Ha. subst st n.
  rewrite run_after_loop.
  destruct (after_loop args all_results) as [[[]| |e] st] eqn:Hal;
    simpl in *; try discriminate.
  destruct (report_validity_lines args ev _ st Hn Ha)
    as (evs & Ht & q1 & q2 & q3 & q4 & q5 & rest & -> & E).
  exists q1, q2, q3, q4, q5, rest. split; [exact Ht | exact E].
Qed.

Lemma report_maps_keys_to_counter_ratios_witness :
  let args := mk_args false none in
  let all_results := [sample_success; sample_incomplete] in
  let st := snd (after_loop args all_results) in
  (fst (after_loop args all_results) = Ret tt /\ 0 < all_n_atom st) /\
  exists q1 q2 q3 q4 q5 rest,
    trace (snd (run args plain_evaluator all_results)) =
      trace st ++ validity_lines 2 q1 q2 q3 q4 q5 ++ rest /\
    (q1 == frac (all_mol_stable st) 2)%Q /\
    (q2 == frac (all_atom_stable st) (all_n_atom st))%Q /\
    (q3 == frac (n_recon_success st) 2)%Q /\
    (q4 == frac (n_eval_success st) 2)%Q /\
    (q5 == frac (n_complete st) 2)%Q.
Proof.
  intros args all_results st.
  assert (Hret : fst (after_loop args all_results) = Ret tt) by reflexivity.
  assert (Ha : 0 < all_n_atom st) by (vm_compute; lia).
  split; [split; assumption|].
  apply (report_maps_keys_to_counter_ratios args plain_evaluator all_results
           Hret); [simpl; lia | exact Ha].
Defined.

(** ** The empty input (lines 50-63, 127-133) *)

(** C4, as the code has it.  On an empty input the loop runs no iteration,
    the end of the loop is logged with 0 samples, and the run then ends with
    the [ZeroDivisionError] of the first fraction,
    [all_mol_stable / num_samples]: no collaborator is called and no report
    line is logged. *)
Theorem empty_input_fails_at_first_fraction (args : Args) (ev : Evaluator) :
  let r := run args ev [] in
  fst r = Raise ZeroDivisionError /\
  trace (snd r) = [Info (LoadDone 0); Info (EvaluateDone 0)].
Proof. split; reflexivity. Qed.

(** C4 as stated fails: the empty input is not rejected when it is loaded.
    The run goes through the loop phase and logs its end ("Evaluate done! 0
    samples in total.") before anything fails; what ends the run is the
    division by [num_samples] of the reporting phase. *)
Lemma empty_input_not_rejected_at_load :
  let r := run (mk_args false none) plain_evaluator [] in
  fst r = Raise ZeroDivisionError /\
  In (Info (EvaluateDone 0)) (trace (snd r)).
Proof. split; [reflexivity|]. right; left; reflexivity. Qed.

(** * Further properties of the driver *)

(** ** [print_dict] (lines 18-23) *)


(** ** [print_ring_ratio] (lines 26-32) *)

(** The inner loop counts the counters that have the key. *)
Lemma count_mols_from (k : Z) (all : list (gmap Z Z)) : forall n,
  foldl (fun n_mol counter =>
           if bool_decide (is_Some (counter !! k)) then n_mol + 1 else n_mol)
        n all
  = n + count_having k all.
Proof.
  unfold count_having.
  induction all as [|c all IH]; intros n; simpl; [lia|].
  rewrite IH. destruct (bool_decide (is_Some (c !! k))); simpl; lia.
Qed.

Lemma count_mols_having (k : Z) (all : list (gmap Z Z)) :
  count_mols k all = count_having k all.
Proof. unfold count_mols. rewrite count_mols_from. reflexivity. Qed.

Lemma count_having_le (k : Z) (all : list (gmap Z Z)) :
  count_having k all <= length all.
Proof. unfold count_having. apply List.filter_length_le. Qed.

Lemma int_true_div_pos (a b : nat) :
  0 < b ->
  int_true_div a b = Ok (inject_Z (Z.of_nat a) / inject_Z (Z.of_nat b))%Q.
Proof. destruct b; [lia | reflexivity]. Qed.

Lemma ring_ratio_loop_nonempty (all : list (gmap Z Z)) (sizes : list Z) :
  all <> [] ->
  forall logged,
    exists lines,
      ring_ratio_loop sizes all logged = (logged ++ lines, Ok tt) /\
      Forall2 (ring_line_ok all) sizes lines.
Proof.
  intros Hne.
  assert (Hlen : 0 < length all) by (destruct all; simpl; [congruence|lia]).
  induction sizes as [|k sizes IH]; intros logged.
  - exists []. rewrite app_nil_r. split; [reflexivity | constructor].
  - cbn [ring_ratio_loop]. rewrite (int_true_div_pos _ _ Hlen).
    destruct (IH (logged ++
                  [RingRatio k (inject_Z (Z.of_nat (count_mols k all))
                                / inject_Z (Z.of_nat (length all)))%Q]))
      as (lines & Hl & Hok).
    eexists (_ :: lines). split.
    + rewrite Hl, <- app_assoc. reflexivity.
    + constructor; [|exact Hok]. split; [reflexivity|].
      assert (E : (inject_Z (Z.of_nat (count_mols k all))
                   / inject_Z (Z.of_nat (length all))
                   == frac (count_having k all) (length all))%Q).
      { rewrite count_mols_having. apply true_div_frac. exact Hlen. }
      split; [exact E|]. rewrite E. apply frac_bounds; [exact Hlen|].
      apply count_having_le.
Qed.

(** X2.  [print_ring_ratio] on an empty list of counters raises
    [ZeroDivisionError] at the first ring size, before logging anything.  On
    a non-empty list it returns after logging seven lines, for the ring
    sizes 3 to 9 in this order; the ratio of each line is the number of
    counters that have the ring size as a key over the number of counters,
    and lies in [0, 1]. *)
Theorem print_ring_ratio_lines (all_ring_sizes : list (gmap Z Z)) :
  (all_ring_sizes = [] ->
   print_ring_ratio all_ring_sizes = ([], Err ZeroDivisionError)) /\
  (all_ring_sizes <> [] ->
   snd (print_ring_ratio all_ring_sizes) = Ok tt /\
   Forall2 (ring_line_ok all_ring_sizes) [3; 4; 5; 6; 7; 8; 9]%Z
           (fst (print_ring_ratio all_ring_sizes))).
Proof.
  split.
  - intros ->. reflexivity.
  - intros Hne. unfold print_ring_ratio.
    destruct (ring_ratio_loop_nonempty all_ring_sizes ring_sizes Hne [])
      as (lines & Hl & Hok).
    rewrite Hl. simpl. split; [reflexivity | exact Hok].
Qed.

Lemma print_ring_ratio_lines_witness :
  [rings_5_6; rings_6; ∅] <> [] /\
  snd (print_ring_ratio [rings_5_6; rings_6; ∅]) = Ok tt /\
  length (fst (print_ring_ratio [rings_5_6; rings_6; ∅])) = 7.
Proof.
  assert (Hne : [rings_5_6; rings_6; ∅] <> []) by discriminate.
  split; [exact Hne|].
  destruct (proj2 (print_ring_ratio_lines [rings_5_6; rings_6; ∅]) Hne)
    as [Hok Hl].
  split; [exact Hok|].
  apply Forall2_length in Hl. rewrite <- Hl. reflexivity.
Defined.

(** ** The loop as a fold (lines 63-125) *)




(** ** What the counters count (lines 55-56, 66-72, 86, 90, 114) *)

(** One iteration adds the sample's contribution to each counter. *)
Lemma body_counts (args : Args) (i : nat) (s : Sample) (st : State) :
  (forall e, fst (body args i s st) <> Raise e) ->
  counted args [s] st (snd (body args i s st)).
Proof.
  cut ((fun o st' => (forall e, o <> Raise e) -> counted args [s] st st')
         (fst (body args i s st)) (snd (body args i s st))); [auto|].
  apply wp_elim.
  wp_run; intros Hne; try (exfalso; eapply Hne; reflexivity).
  all: unfold counted, count_samples, atom_types_sum, verdict_of;
    cbn [List.filter sum_list_with foldr];
    unfold is_success; unfold_spec; answers;
    rewrite ?forallb_not_separator; answers.
  all: answers; repeat split;
    repeat match goal with
    | |- context [molecule_stable ?v] => destruct (molecule_stable v); simpl
    end; try lia; try multiset_solver.
Qed.

Lemma counted_cons args x xs st st1 st2 :
  counted args [x] st st1 -> counted args xs st1 st2 ->
  counted args (x :: xs) st st2.
Proof.
  unfold counted, count_samples, atom_types_sum.
  cbn [List.filter sum_list_with foldr].
  intros (H1 & H2 & H3 & H4 & H5 & H6 & H7) (K1 & K2 & K3 & K4 & K5 & K6 & K7).
  rewrite K1, K2, K3, K4, K5, K6, K7, H1, H2, H3, H4, H5, H6, H7.
  repeat split;
    repeat match goal with
    | |- context [if ?b then _ else _] => destruct b; simpl
    end; try lia; multiset_solver.
Qed.

Lemma loop_counts (args : Args) (xs : list Sample) (st : State) :
  fst (sample_loop args xs st) = Ret tt ->
  counted args xs st (snd (sample_loop args xs st)).
Proof.
  unfold sample_loop.
  apply (for_enumerate_normal (body args) (fun _ => counted args)).
  - intros _ st0. unfold counted, count_samples, atom_types_sum. simpl.
    repeat split; try lia. multiset_solver.
  - intros i x l st0 st' Hne Hrest.
    eapply counted_cons; [apply body_counts, Hne | exact Hrest].
Qed.

(** X3.  When the loop of a run ends normally, [n_recon_success] is the
    number of samples whose reconstruction stage returned, [n_complete] the
    number of those whose canonical string has a single fragment, and
    [n_eval_success] the number of samples of the success set. *)
Theorem gate_counters_count_samples (args : Args) (all_results : list Sample) :
  fst (after_loop args all_results) = Ret tt ->
  let st := snd (after_loop args all_results) in
  n_recon_success st = count_samples passes_reconstruction all_results /\
  n_complete st =
    count_samples (fun s => passes_reconstruction s && passes_completeness s)
                  all_results /\
  n_eval_success st = count_samples (is_success args) all_results.
Proof.
  intros Hret st.
  destruct (loop_counts args all_results _ Hret) as (H1 & H2 & H3 & _).
  fold (after_loop args all_results) in H1, H2, H3. fold st in H1, H2, H3.
  simpl in H1, H2, H3. auto.
Qed.

Lemma gate_counters_count_samples_witness :
  let args := mk_args false vina_dock in
  let all_results :=
    [sample_success; sample_recon_fails; sample_incomplete; sample_dock_fails;
     sample_success] in
  let st := snd (after_loop args all_results) in
  fst (after_loop args all_results) = Ret tt /\
  n_recon_success st = 4 /\ n_complete st = 3 /\ n_eval_success st = 2.
Proof.
  intros args all_results st.
  assert (Hret : fst (after_loop args all_results) = Ret tt) by reflexivity.
  split; [exact Hret|].
  exact (gate_counters_count_samples args all_results Hret).
Defined.

(** X4.  When the loop of a run ends normally, [all_mol_stable] is the number
    of samples judged stable, [all_atom_stable] and [all_n_atom] are the sums
    of the stable-atom and atom counts of the verdicts, and [all_atom_types]
    is the sum of the atom-type counters of all samples. *)
Theorem stability_totals_sum_verdicts (args : Args) (all_results : list Sample) :
  fst (after_loop args all_results) = Ret tt ->
  let st := snd (after_loop args all_results) in
  all_mol_stable st =
    count_samples (fun s => molecule_stable (verdict_of s)) all_results /\
  all_atom_stable st =
    sum_list_with (fun s => n_stable_atoms (verdict_of s)) all_results /\
  all_n_atom st = sum_list_with (fun s => n_atoms (verdict_of s)) all_results /\
  all_atom_types st = atom_types_sum all_results.
Proof.
  intros Hret st.
  destruct (loop_counts args all_results _ Hret) as (_ & _ & _ & H4 & H5 & H6 & H7).
  fold (after_loop args all_results) in H4, H5, H6, H7. fold st in H4, H5, H6, H7.
  simpl in H4, H5, H6, H7. repeat split; try assumption.
  rewrite H7. multiset_solver.
Qed.

Lemma stability_totals_sum_verdicts_witness :
  let args := mk_args false qvina in
  let all_results := [sample_success; sample_recon_fails; sample_incomplete] in
  let st := snd (after_loop args all_results) in
  fst (after_loop args all_results) = Ret tt /\
  all_mol_stable st = 0 /\ all_atom_stable st = 6 /\ all_n_atom st = 9 /\
  all_atom_types st = atom_types_sum all_results.
Proof.
  intros args all_results st.
  assert (Hret : fst (after_loop args all_results) = Ret tt) by reflexivity.
  split; [exact Hret|].
  exact (stability_totals_sum_verdicts args all_results Hret).
Defined.

(** X6.  On a sample whose failures are all ones a handler catches, the
    iteration ends normally when the sample is of the success set and by
    [continue] when the molecule is incomplete; when the reconstruction
    stage or the chemical/docking stage fails it ends by [continue] without
    [--verbose], and with [--verbose] by the [NameError] of [example_idx],
    which leaves the loop. *)
Theorem iteration_ends_as_classified
    (args : Args) (i : nat) (s : Sample) (st : State) :
  only_caught_failures s = true ->
  fst (body args i s st) = iteration_outcome args s.
Proof.
  intros Hs.
  unfold only_caught_failures, ok_or_MolReconsError, catches_MolReconsError in Hs.
  unfold iteration_outcome, handler_outcome. unfold_spec.
  wp_of (body args i s) st.
  wp_run; answers_in Hs; try discriminate.
  all: try (rewrite ?bool_decide_eq_false_2 in Hs by assumption; simpl in Hs;
            rewrite ?andb_false_r in Hs; discriminate).
  all: answers; rewrite ?forallb_not_separator; answers; try reflexivity.
Qed.

Lemma iteration_ends_as_classified_witness :
  let args := mk_args true vina_score in
  only_caught_failures sample_recon_fails = true /\
  fst (body args 0 sample_recon_fails init_state) =
    Raise (NameError "example_idx").
Proof.
  intros args.
  assert (Hs : only_caught_failures sample_recon_fails = true) by reflexivity.
  split; [exact Hs|].
  exact (iteration_ends_as_classified args 0 sample_recon_fails init_state Hs).
Defined.

(** X7.  In every iteration, whatever fails, the docking calls made are an
    initial part of the calls of the docking mode, in their order: none
    under [none], the task and [run_sync] under [qvina], the task,
    [score_only] and [minimize] under [vina_score], and [dock] after them
    under [vina_dock], each Vina run with [--exhaustiveness].  On a complete
    sample whose stage succeeds they are all made. *)
Theorem docking_calls_follow_mode
    (args : Args) (i : nat) (s : Sample) (st : State) :
  let st' := snd (body args i s st) in
  docking_calls (events_since st st') `prefix_of` mode_calls args /\
  (reaches_evaluation s = true -> passes_evaluation args s = true ->
   docking_calls (events_since st st') = mode_calls args).
Proof.
  intros st'. subst st'. unfold mode_calls. unfold_spec.
  wp_of (body args i s) st.
  wp_run; events_now; simpl.
  all: split; [first [apply prefix_nil | eexists; reflexivity]|].
  all: intros Hreach Hpass; decide_in Hreach; decide_in Hpass;
    try discriminate; try reflexivity.
Qed.

Lemma docking_calls_follow_mode_witness :
  let args := mk_args false vina_dock in
  reaches_evaluation sample_success = true /\
  passes_evaluation args sample_success = true /\
  docking_calls
    (events_since init_state (snd (body args 0 sample_success init_state))) =
  [CVinaTask; CVinaRun score_only 16; CVinaRun minimize 16; CVinaRun dock 16].
Proof.
  intros args.
  assert (H1 : reaches_evaluation sample_success = true) by reflexivity.
  assert (H2 : passes_evaluation args sample_success = true) by reflexivity.
  split; [exact H1|]. split; [exact H2|].
  exact (proj2 (docking_calls_follow_mode args 0 sample_success init_state)
               H1 H2).
Defined.

(** ** The shape of the trace *)

(** An iteration logs nothing: it only records calls made for its sample. *)
Lemma body_sample_calls (args : Args) (i : nat) (s : Sample) (st : State) :
  exists evs, trace (snd (body args i s st)) = trace st ++ evs /\
              Forall is_sample_call evs.
Proof.
  wp_of (body args i s) st.
  wp_run; trace_now.
Qed.

Lemma loop_sample_calls (args : Args) (xs : list Sample) (st : State) :
  exists evs, trace (snd (sample_loop args xs st)) = trace st ++ evs /\
              Forall is_sample_call evs.
Proof.
  unfold sample_loop.
  apply (for_enumerate_preserves (body args)
    (fun st' => exists evs, trace st' = trace st ++ evs /\
                            Forall is_sample_call evs)).
  - intros i x st' _ (evs & Ht & Hev).
    destruct (body_sample_calls args i x st') as (evs' & Ht' & Hev').
    exists (evs ++ evs'). split.
    + rewrite Ht', Ht, app_assoc. reflexivity.
    + apply Forall_app. split; assumption.
  - exists []. rewrite app_nil_r. split; [reflexivity | constructor].
Qed.

Lemma report_event_kind (n : nat) (st : State) (ev : Event) :
  report_event n st ev -> is_report_event ev.
Proof. destruct ev as [? ?|?|[]|?]; simpl; tauto. Qed.

(** X11.  The trace of every run is the loading line with the number of
    loaded samples, then calls made for samples only, then events of the
    reporting phase only: no reporting collaborator is called and no line is
    logged while samples are processed, and no sample is touched once the
    reporting has begun. *)
Theorem run_is_load_loop_report
    (args : Args) (ev : Evaluator) (all_results : list Sample) :
  exists calls report_evs,
    trace (snd (run args ev all_results)) =
      Info (LoadDone (length all_results)) :: calls ++ report_evs /\
    Forall is_sample_call calls /\
    Forall is_report_event report_evs.
Proof.
  destruct (loop_sample_calls args all_results
              (record_event (Info (LoadDone (length all_results))) init_state))
    as (evs1 & Ht & Hev1).
  fold (after_loop args all_results) in Ht. simpl in Ht.
  rewrite run_after_loop.
  destruct (after_loop args all_results) as [[[]| |e] st] eqn:Hal; simpl in *.
  - destruct (report_events args ev (length all_results) st)
      as (_ & (evs2 & Ht2 & Hev2) & _).
    exists evs1, evs2. rewrite Ht2, Ht. repeat split; try assumption.
    eapply List.Forall_impl; [|exact Hev2]. intros x. apply report_event_kind.
  - exists evs1, []. rewrite app_nil_r. repeat split; auto.
  - exists evs1, []. rewrite app_nil_r. repeat split; auto.
Qed.

Lemma run_has_no_warning
    (args : Args) (ev : Evaluator) (all_results : list Sample) (l : LogLine) :
  ~ In (Warning l) (trace (snd (run args ev all_results))).
Proof.
  destruct (loop_sample_calls args all_results
              (record_event (Info (LoadDone (length all_results))) init_state))
    as (evs1 & Ht & Hev1).
  fold (after_loop args all_results) in Ht. simpl in Ht.
  assert (Hloop : ~ In (Warning l) (trace (snd (after_loop args all_results)))).
  { rewrite Ht. intros [Hin|Hin]; [discriminate|].
    rewrite List.Forall_forall in Hev1. apply (Hev1 _ Hin). }
  rewrite run_after_loop.
  destruct (after_loop args all_results) as [[[]| |e] st] eqn:Hal; simpl in *;
    try exact Hloop.
  destruct (report_events args ev (length all_results) st)
    as (_ & (evs2 & Ht2 & Hev2) & _).
  rewrite Ht2. intros Hin. apply in_app_or in Hin. destruct Hin as [Hin|Hin].
  - exact (Hloop Hin).
  - rewrite List.Forall_forall in Hev2. apply (Hev2 _ Hin).
Qed.

(** X5.  No run logs a warning, with or without [--verbose]: both warnings
    format [example_idx] first, which raises before [logger.warning] is
    called. *)
Theorem no_warning_is_ever_logged
    (args : Args) (ev : Evaluator) (all_results : list Sample) :
  Forall not_warning (trace (snd (run args ev all_results))).
Proof.
  apply List.Forall_forall. intros [i c|c|l|l] Hin; simpl; trivial.
  exact (run_has_no_warning args ev all_results l Hin).
Qed.

(** X10.  Computing the fractions changes no variable; it raises
    [ZeroDivisionError] exactly when [num_samples] is 0 or no atom was
    counted ([all_n_atom] is 0, as for samples without atoms), and yields
    the dictionary otherwise. *)
Theorem validity_dict_fails_iff_zero_denominator (n : nat) (st : State) :
  snd (validity_dict n st) = st /\
  (fst (validity_dict n st) = Raise ZeroDivisionError <->
   n = 0 \/ all_n_atom st = 0) /\
  (0 < n -> 0 < all_n_atom st -> exists d, fst (validity_dict n st) = Ret d).
Proof.
  destruct (validity_dict_spec n st) as [Hspec Hst].
  split; [exact Hst|].
  destruct (fst (validity_dict n st)) as [d| |e]; simpl in Hspec.
  - destruct Hspec as (Hn & Ha & _). split.
    + split; [discriminate | lia].
    + eauto.
  - destruct Hspec.
  - destruct Hspec as [-> Hz]. split.
    + split; auto.
    + lia.
Qed.

Lemma validity_dict_fails_iff_zero_denominator_witness :
  let st := snd (after_loop (mk_args false none) [sample_success]) in
  0 < 1 /\ 0 < all_n_atom st /\
  exists d, fst (validity_dict 1 st) = Ret d.
Proof.
  intros st.
  assert (H1 : 0 < 1) by lia.
  assert (H2 : 0 < all_n_atom st) by (vm_compute; lia).
  split; [exact H1|]. split; [exact H2|].
  exact (proj2 (proj2 (validity_dict_fails_iff_zero_denominator 1 st)) H1 H2).
Defined.

(** ** The reporting phase (lines 127-161) *)



Lemma run_calls_sample_calls (evs : list Event) :
  Forall is_sample_call evs -> run_calls evs = [].
Proof.
  induction 1 as [|[? ?|c|?|?] l Hx Hl IH]; simpl in *; auto; destruct Hx.
Qed.





Lemma report_summary_only_at_end (args : Args) (ev : Evaluator) (n : nat)
    (st : State) :
  let r := report args ev n st in
  fst r = Ret tt \/
  exists evs, trace (snd r) = trace st ++ evs /\ Forall not_summary evs.
Proof.
  intros r. subst r.
  wp_of (report args ev n) st.
  wp_report; first [left; reflexivity | right; trace_now].
Qed.

(** X9.  The closing summary line is logged exactly when the run ends
    normally: an exception that leaves the loop, a zero denominator or a
    failing reporting collaborator ends the run without it. *)
Theorem summary_logged_iff_run_ends_normally
    (args : Args) (ev : Evaluator) (all_results : list Sample) :
  let r := run args ev all_results in
  (exists a b c, In (Info (Summary a b c)) (trace (snd r))) <-> fst r = Ret tt.
Proof.
  intros r. subst r.
  destruct (after_loop_events args all_results) as (evs1 & Ht & Hev1).
  assert (Hloop : forall a b c,
             ~ In (Info (Summary a b c)) (trace (snd (after_loop args all_results)))).
  { intros a b c. rewrite Ht. intros [Hin|Hin]; [discriminate|].
    rewrite List.Forall_forall in Hev1. apply (Hev1 _ Hin). }
  rewrite run_after_loop.
  destruct (after_loop args all_results) as [[[]| |e] st] eqn:Hal; simpl in *.
  - split.
    + intros (a & b & c & Hin).
      destruct (report_summary_only_at_end args ev (length all_results) st)
        as [Hr | (evs & Ht2 & Hns)]; [exact Hr|].
      exfalso. rewrite Ht2 in Hin. apply in_app_or in Hin.
      destruct Hin as [Hin|Hin]; [exact (Hloop _ _ _ Hin)|].
      rewrite List.Forall_forall in Hns. apply (Hns _ Hin).
    + intros Hr.
      destruct (report_events args ev (length all_results) st) as (_ & _ & Hl).
      specialize (Hl Hr). do 3 eexists.
      apply list_elem_of_In, last_Some_elem_of. exact Hl.
  - split; [intros (a & b & c & Hin); exfalso; exact (Hloop _ _ _ Hin)
           | discriminate].
  - split; [intros (a & b & c & Hin); exfalso; exact (Hloop _ _ _ Hin)
           | discriminate].
Qed.

(** X12.  In a run whose loop ends normally, the counter handed to
    [eval_atom_type_distribution] is the sum of the atom types of the
    samples of the success set; the atom types of the other samples, kept in
    [all_atom_types], are not part of it. *)
Theorem atom_type_js_gets_success_types
    (args : Args) (ev : Evaluator) (all_results : list Sample) :
  fst (after_loop args all_results) = Ret tt ->
  forall arg,
    In (OnRun (CAtomTypeJS arg)) (trace (snd (run args ev all_results))) ->
    arg = atom_types_sum (List.filter (is_success args) all_results).
Proof.
  intros Hret arg Hin.
  destruct (loop_accumulates args all_results _ Hret) as (_ & _ & _ & H4).
  fold (after_loop args all_results) in H4. simpl in H4.
  destruct (run_events args ev all_results) as (evs1 & evs2 & Ht & Hev1 & Hev2).
  rewrite Ht in Hin. destruct Hin as [Hin|Hin]; [discriminate|].
  apply in_app_or in Hin. destruct Hin as [Hin|Hin].
  - rewrite List.Forall_forall in Hev1. destruct (Hev1 _ Hin).
  - rewrite List.Forall_forall in Hev2. specialize (Hev2 _ Hin).
    simpl in Hev2. rewrite Hev2, H4. multiset_solver.
Qed.

Lemma atom_type_js_gets_success_types_witness :
  let args := mk_args false none in
  let all_results := [sample_success; sample_incomplete] in
  let arg := success_atom_types (snd (after_loop args all_results)) in
  fst (after_loop args all_results) = Ret tt /\
  In (OnRun (CAtomTypeJS arg))
     (trace (snd (run args plain_evaluator all_results))) /\
  arg = atom_types_sum [sample_success].
Proof.
  intros args all_results arg.
  assert (Hret : fst (after_loop args all_results) = Ret tt) by reflexivity.
  assert (Hin : In (OnRun (CAtomTypeJS arg))
                   (trace (snd (run args plain_evaluator all_results)))).
  { unfold arg, all_results, args. vm_compute. repeat (first [left; reflexivity | right]). }
  split; [exact Hret|]. split; [exact Hin|].
  exact (atom_type_js_gets_success_types args plain_evaluator all_results
           Hret arg Hin).
Defined.

(** X14.  The events of the iteration of sample [i] are calls tagged [i],
    made in the order of the source (decoder, stability check, pair
    distances, aromaticity, reconstruction, canonical string, [get_chem],
    the docking calls of the mode, bonded distances) and stopping at the
    first failure or gate: they form an initial part of that sequence. *)
Theorem iteration_calls_follow_pipeline
    (args : Args) (i : nat) (s : Sample) (st : State) :
  let evs := events_since st (snd (body args i s st)) in
  evs = map (OnSample i) (sample_calls evs) /\
  sample_calls evs `prefix_of` pipeline args.
Proof.
  intros evs. subst evs. unfold pipeline, mode_calls.
  wp_of (body args i s) st.
  wp_run; events_now; simpl; (split; [reflexivity|]); answers;
    eexists; reflexivity.
Qed.

(** X15.  The reporting phase changes no counter and no accumulator: at
    the end of a run the variables are those the loop left. *)
Theorem report_keeps_variables
    (args : Args) (ev : Evaluator) (all_results : list Sample) :
  same_variables (snd (after_loop args all_results))
                 (snd (run args ev all_results)).
Proof.
  rewrite run_after_loop.
  destruct (after_loop args all_results) as [[[]| |e] st]; simpl;
    try (unfold same_variables; repeat split; reflexivity).
  wp_of (report args ev (length all_results)) st.
  wp_report; unfold same_variables; simpl; repeat split; reflexivity.
Qed.
